(** * express-openapi-validator: error classes, option handling and the
    middleware chain of [OpenApiValidator]

  A shallow embedding of [framework/types.ts] (the [HttpError] class
  family) and of [openapi.validator.ts] (constructor, option validation
  and normalisation, [installMiddleware], [installPathParams],
  [installOperationHandlers]).

  JavaScript values are modelled as the code uses them: optional fields
  are [option]s ([None] is [undefined]/[null]), numbers that carry HTTP
  statuses are [Z], thrown values keep their truthiness, closure variables
  of [installMiddleware] are fields of an explicit state, and every
  promise callback is one atomic step of a scheduler-driven machine. *)

From Stdlib Require Import List ZArith String Bool Lia Arith.
Import ListNotations.

Local Open Scope string_scope.
Local Open Scope Z_scope.

(* ================================================================== *)
(** ** JavaScript values *)
(* ================================================================== *)

Module Js.

(** Primitive values, as far as the modelled code can tell them apart. *)
Inductive Prim : Type :=
| Undefined
| Null
| Bool (b : bool)
| Num (z : Z)
| Str (s : string).

(** A value is a primitive or an object of some type [O]. *)
Inductive Val (O : Type) : Type :=
| P (p : Prim)
| Obj (o : O).
Arguments P {O} p.
Arguments Obj {O} o.

(** [ToBoolean] on primitives: [undefined], [null], [false], [0] and
    the empty string are falsy. *)
Definition prim_truthy (p : Prim) : bool :=
  match p with
  | Undefined | Null => false
  | Bool b => b
  | Num z => negb (z =? 0)
  | Str s => negb (String.eqb s "")
  end.

(** Every object is truthy. *)
Definition truthy {O} (v : Val O) : bool :=
  match v with
  | P p => prim_truthy p
  | Obj _ => true
  end.

(** [x == null]. *)
Definition nullish {O} (v : Val O) : bool :=
  match v with
  | P Undefined | P Null => true
  | _ => false
  end.

(** [a || d] on an optional number. *)
Definition num_or (a : option Z) (d : Z) : Z :=
  match a with
  | Some z => if z =? 0 then d else z
  | None => d
  end.

(** [a ?? d]. *)
Definition coalesce {A} (a : option A) (d : A) : A :=
  match a with
  | Some x => x
  | None => d
  end.

End Js.

(* ================================================================== *)
(** ** framework/types.ts: the [HttpError] family *)
(* ================================================================== *)

Module Types.

Record ValidationErrorItem : Type := mkItem {
  item_path : option string;
  item_message : option string;
  item_errorCode : option string
}.

Record ErrorHeaders : Type := mkHeaders {
  Allow : option string
}.

(** The class an error object was constructed with ([instanceof]). *)
Inductive ErrorClass : Type :=
| ClsHttpError
| ClsBadRequest
| ClsUnauthorized
| ClsForbidden
| ClsNotFound
| ClsMethodNotAllowed
| ClsNotAcceptable
| ClsRequestEntityTooLarge
| ClsUnsupportedMediaType
| ClsInternalServerError.

(** The fields assigned by the [HttpError] constructor. *)
Record HttpError : Type := mkHttpError {
  cls : ErrorClass;
  name : string;
  status : Z;
  path : option string;
  message : option string;
  headers : option ErrorHeaders;
  errors : list ValidationErrorItem
}.

(** Argument of [new HttpError(err)]. *)
Record HttpErrorArg : Type := mkHttpErrorArg {
  a_status : Z;
  a_path : option string;
  a_name : string;
  a_message : option string;
  a_headers : option ErrorHeaders;
  a_errors : option (list ValidationErrorItem)
}.

(** [constructor(err)] of [HttpError]; [c] is the class being
    instantiated ([new.target]). *)
Definition construct (c : ErrorClass) (err : HttpErrorArg) : HttpError :=
  {| cls := c;
     name := a_name err;
     status := a_status err;
     path := a_path err;
     message := a_message err;
     headers := a_headers err;
     errors := Js.coalesce (a_errors err)
                 [ {| item_path := a_path err;
                      item_message := a_message err;
                      item_errorCode := None |} ] |}.

Definition newHttpError : HttpErrorArg -> HttpError := construct ClsHttpError.

(** Argument of the subclass constructors.  Each subclass declares the
    fields it reads; a field a subclass does not read is ignored by it. *)
Record SubArg : Type := mkSubArg {
  s_path : option string;
  s_message : option string;
  s_headers : option ErrorHeaders;
  s_overrideStatus : option Z;
  s_errors : option (list ValidationErrorItem)
}.

Definition newNotFound (err : SubArg) : HttpError :=
  construct ClsNotFound
    {| a_status := Js.num_or (s_overrideStatus err) 404;
       a_path := s_path err;
       a_message := s_message err;
       a_name := "Not Found";
       a_headers := None;
       a_errors := None |}.

Definition newNotAcceptable (err : SubArg) : HttpError :=
  construct ClsNotAcceptable
    {| a_status := Js.num_or (s_overrideStatus err) 406;
       a_path := s_path err;
       a_name := "Not Acceptable";
       a_message := s_message err;
       a_headers := None;
       a_errors := None |}.

Definition newMethodNotAllowed (err : SubArg) : HttpError :=
  construct ClsMethodNotAllowed
    {| a_status := Js.num_or (s_overrideStatus err) 405;
       a_path := s_path err;
       a_name := "Method Not Allowed";
       a_message := s_message err;
       a_headers := s_headers err;
       a_errors := None |}.

Definition newBadRequest (err : SubArg) : HttpError :=
  construct ClsBadRequest
    {| a_status := Js.num_or (s_overrideStatus err) 400;
       a_path := s_path err;
       a_name := "Bad Request";
       a_message := s_message err;
       a_headers := None;
       a_errors := s_errors err |}.

Definition newRequestEntityTooLarge (err : SubArg) : HttpError :=
  construct ClsRequestEntityTooLarge
    {| a_status := Js.num_or (s_overrideStatus err) 413;
       a_path := s_path err;
       a_name := "Request Entity Too Large";
       a_message := s_message err;
       a_headers := None;
       a_errors := None |}.

Definition newInternalServerError (err : SubArg) : HttpError :=
  construct ClsInternalServerError
    {| a_status := Js.num_or (s_overrideStatus err) 500;
       a_path := s_path err;
       a_name := "Internal Server Error";
       a_message := s_message err;
       a_headers := None;
       a_errors := s_errors err |}.

Definition newUnsupportedMediaType (err : SubArg) : HttpError :=
  construct ClsUnsupportedMediaType
    {| a_status := Js.num_or (s_overrideStatus err) 415;
       a_path := s_path err;
       a_name := "Unsupported Media Type";
       a_message := s_message err;
       a_headers := None;
       a_errors := None |}.

Definition newUnauthorized (err : SubArg) : HttpError :=
  construct ClsUnauthorized
    {| a_status := Js.num_or (s_overrideStatus err) 401;
       a_path := s_path err;
       a_name := "Unauthorized";
       a_message := s_message err;
       a_headers := None;
       a_errors := None |}.

Definition newForbidden (err : SubArg) : HttpError :=
  construct ClsForbidden
    {| a_status := Js.num_or (s_overrideStatus err) 403;
       a_path := s_path err;
       a_name := "Forbidden";
       a_message := s_message err;
       a_headers := None;
       a_errors := None |}.

(** Argument of [HttpError.create].  Its declared type is [{status,
    path, message?, errors?}]; the object it names may carry more, and
    the subclass constructors, which are handed the same object, read
    [overrideStatus] and [headers] from it. *)
Record CreateArg : Type := mkCreateArg {
  c_status : Z;
  c_path : string;
  c_message : option string;
  c_errors : option (list ValidationErrorItem);
  c_overrideStatus : option Z;
  c_headers : option ErrorHeaders
}.

(** [create] hands its own argument object to the subclass
    constructor. *)
Definition pass (err : CreateArg) : SubArg :=
  {| s_path := Some (c_path err);
     s_message := c_message err;
     s_headers := c_headers err;
     s_overrideStatus := c_overrideStatus err;
     s_errors := c_errors err |}.

(** [HttpError.create(err)]: the [switch] on [err.status]. *)
Definition create (err : CreateArg) : HttpError :=
  let s := c_status err in
  if s =? 400 then newBadRequest (pass err)
  else if s =? 401 then newUnauthorized (pass err)
  else if s =? 403 then newForbidden (pass err)
  else if s =? 404 then newNotFound (pass err)
  else if s =? 405 then newMethodNotAllowed (pass err)
  else if s =? 406 then newNotAcceptable (pass err)
  else if s =? 413 then newRequestEntityTooLarge (pass err)
  else if s =? 415 then newUnsupportedMediaType (pass err)
  else newInternalServerError (pass err).

(** The statuses with a [case] of their own, and the class of each. *)
Definition known : list (Z * ErrorClass) :=
  [ (400, ClsBadRequest); (401, ClsUnauthorized); (403, ClsForbidden);
    (404, ClsNotFound); (405, ClsMethodNotAllowed);
    (406, ClsNotAcceptable); (413, ClsRequestEntityTooLarge);
    (415, ClsUnsupportedMediaType) ].

End Types.

(* ================================================================== *)
(** ** openapi.validator.ts: options *)
(* ================================================================== *)

Module Opts.

(** A function value that the modelled code stores or hands on but never
    calls itself; only its identity matters. *)
Definition Fn : Type := nat.

(** What a [throw] can carry. *)
Inductive ErrObj : Type :=
| PlainError (msg : string)
| TypeError (msg : string)
| Http (e : Types.HttpError).

Definition Thrown : Type := Js.Val ErrObj.

(** [boolean | A]. *)
Inductive OrBool (A : Type) : Type :=
| IsBool (b : bool)
| IsObj (a : A).
Arguments IsBool {A} b.
Arguments IsObj {A} a.

(** Truthiness of an optional [boolean | object] field. *)
Definition on {A} (v : option (OrBool A)) : bool :=
  match v with
  | None => false
  | Some (IsBool b) => b
  | Some (IsObj _) => true
  end.

Inductive CoerceTypes : Type := CoerceBool (b : bool) | CoerceArray.
Inductive RemoveAdditional : Type :=
| RemoveBool (b : bool) | RemoveAll | RemoveFailing.

Record ValidateRequestOpts : Type := mkReqOpts {
  req_allErrors : option bool;
  req_allowUnknownQueryParameters : option bool;
  req_coerceTypes : option CoerceTypes;
  req_removeAdditional : option RemoveAdditional
}.

Record ValidateResponseOpts : Type := mkResOpts {
  res_allErrors : option bool;
  res_removeAdditional : option RemoveAdditional;
  res_coerceTypes : option CoerceTypes;
  res_onError : Js.Val Fn
}.

Record ValidateSecurityOpts : Type := mkSecOpts {
  sec_handlers : option (list (string * Fn))
}.

Inductive Resolver : Type := DefaultResolver | UserResolver (f : Fn).

Record OperationHandlerOptions : Type := mkOpHandlers {
  oh_basePath : string;
  oh_resolver : option Resolver
}.

(** [operationHandlers?: false | string | OperationHandlerOptions],
    with the two nullish values kept apart because [typeof null] is
    ['object']. *)
Inductive OperationHandlers : Type :=
| OHUndefined
| OHNull
| OHFalse
| OHString (s : string)
| OHObject (o : OperationHandlerOptions).

Inductive FormatType : Type := TNumber | TString.

Record Format : Type := mkFormat {
  fmt_name : string;
  fmt_type : option FormatType;
  fmt_validate : Fn
}.

(** A value of the [formats] object. *)
Inductive AjvFormat : Type :=
| FValidate (f : Fn)
| FTyped (t : FormatType) (f : Fn)
| FTrue.

Inductive Formats : Type :=
| FormatsArray (l : list Format)
| FormatsObject (o : list (string * AjvFormat)).

Inductive ValidateFormats : Type := VFBool (b : bool) | VFMode (s : string).

Inductive UnknownFormats : Type :=
| UFBool (b : bool)
| UFString (s : string)
| UFArray (l : list string).

Record SerDes : Type := mkSerDes {
  format : string;
  serialize : option Fn;
  deserialize : option Fn
}.

Record SecurityScheme : Type := mkScheme { scheme_type : string }.

Record ComponentsObject : Type := mkComponents {
  securitySchemes : option (list (string * SecurityScheme));
  schemas : list string
}.

(** The part of an OpenAPI document the modelled code looks at. *)
Record Document : Type := mkDocument {
  openapi : string;
  paths : list string;
  components : option ComponentsObject
}.

Record MulterOptions : Type := mkMulter { dest : option string }.
Inductive RefParserMode : Type := Bundle | Dereference.
Record AjvFormatsOpts : Type := mkAjvFormats { mode : string }.

(** [OpenApiValidatorOpts]; after the constructor has run the same
    object is used as [NormalizedOpenApiValidatorOpts]. *)
Record Options : Type := mkOptions {
  apiSpec : Js.Val Document;
  validateApiSpec : option bool;
  validateResponses : option (OrBool ValidateResponseOpts);
  validateRequests : option (OrBool ValidateRequestOpts);
  validateSecurity : option (OrBool ValidateSecurityOpts);
  ignorePaths : option Fn;
  ignoreUndocumented : option bool;
  securityHandlers : option (list (string * Fn));
  coerceTypes : option CoerceTypes;
  useRequestUrl : option bool;
  unknownFormats : option UnknownFormats;
  serDes : option (list SerDes);
  formats : option Formats;
  ajvFormats : option AjvFormatsOpts;
  fileUploader : option (OrBool MulterOptions);
  multerOpts : option MulterOptions;
  refParser : option RefParserMode;
  operationHandlers : OperationHandlers;
  validateFormats : option ValidateFormats
}.

(** [o[k] = v] on an object kept as an association list in insertion
    order. *)
Fixpoint assign {A} (k : string) (v : A) (o : list (string * A))
  : list (string * A) :=
  match o with
  | [] => [(k, v)]
  | (k', v') :: o' =>
      if String.eqb k k' then (k, v) :: o' else (k', v') :: assign k v o'
  end.

(** [Array.prototype.find] with the predicate of [normalizeOptions]. *)
Definition findFormat (f : string) (l : list SerDes) : option SerDes :=
  find (fun currentOptionSerDes => String.eqb f (format currentOptionSerDes)) l.

End Opts.

(* ================================================================== *)
(** ** openapi.validator.ts: the constructor *)
(* ================================================================== *)

Module Validator.
Import Opts.

(** The nine [if (options.x == null) options.x = d] lines. *)
Definition applyDefaults (o : Options) : Options :=
  {| apiSpec := apiSpec o;
     validateApiSpec := Some (Js.coalesce (validateApiSpec o) true);
     validateRequests := Some (Js.coalesce (validateRequests o) (IsBool true));
     validateResponses := Some (Js.coalesce (validateResponses o) (IsBool false));
     validateSecurity := Some (Js.coalesce (validateSecurity o) (IsBool true));
     ignorePaths := ignorePaths o;
     ignoreUndocumented := ignoreUndocumented o;
     securityHandlers := securityHandlers o;
     coerceTypes := coerceTypes o;
     useRequestUrl := Some (Js.coalesce (useRequestUrl o) false);
     unknownFormats := unknownFormats o;
     serDes := serDes o;
     formats := Some (Js.coalesce (formats o) (FormatsObject []));
     ajvFormats := ajvFormats o;
     fileUploader := Some (Js.coalesce (fileUploader o) (IsObj (mkMulter None)));
     multerOpts := multerOpts o;
     refParser := Some (Js.coalesce (refParser o) Bundle);
     operationHandlers := operationHandlers o;
     validateFormats := Some (Js.coalesce (validateFormats o) (VFBool true)) |}.

(** [typeof operationHandlers === 'string'] gives the object with the
    default resolver; anything whose [typeof] is not ['object'] becomes
    [false]; [null] has [typeof] ['object'] and stays. *)
Definition convertOperationHandlers (h : OperationHandlers) : OperationHandlers :=
  match h with
  | OHString s => OHObject (mkOpHandlers s (Some DefaultResolver))
  | OHUndefined | OHFalse => OHFalse
  | OHNull => OHNull
  | OHObject o => OHObject o
  end.

Definition defaultResponseOpts : ValidateResponseOpts :=
  {| res_allErrors := None;
     res_removeAdditional := Some (RemoveBool false);
     res_coerceTypes := Some (CoerceBool false);
     res_onError := Js.P Js.Null |}.

Definition defaultRequestOpts : ValidateRequestOpts :=
  {| req_allErrors := None;
     req_allowUnknownQueryParameters := Some false;
     req_coerceTypes := Some (CoerceBool false);
     req_removeAdditional := None |}.

(** [if (options.x === true) options.x = { ... }]. *)
Definition expandTrue {A} (d : A) (v : option (OrBool A)) : option (OrBool A) :=
  match v with
  | Some (IsBool true) => Some (IsObj d)
  | _ => v
  end.

(** The constructor up to the call of [validateOptions]. *)
Definition prepare (o : Options) : Options :=
  let o := applyDefaults o in
  {| apiSpec := apiSpec o;
     validateApiSpec := validateApiSpec o;
     validateRequests := expandTrue defaultRequestOpts (validateRequests o);
     validateResponses := expandTrue defaultResponseOpts (validateResponses o);
     validateSecurity := expandTrue (mkSecOpts None) (validateSecurity o);
     ignorePaths := ignorePaths o;
     ignoreUndocumented := ignoreUndocumented o;
     securityHandlers := securityHandlers o;
     coerceTypes := coerceTypes o;
     useRequestUrl := useRequestUrl o;
     unknownFormats := unknownFormats o;
     serDes := serDes o;
     formats := formats o;
     ajvFormats := ajvFormats o;
     fileUploader := fileUploader o;
     multerOpts := multerOpts o;
     refParser := refParser o;
     operationHandlers := convertOperationHandlers (operationHandlers o);
     validateFormats := validateFormats o |}.

Definition coerceTypes_truthy (c : option CoerceTypes) : bool :=
  match c with
  | Some (CoerceBool b) => b
  | Some CoerceArray => true
  | None => false
  end.

Definition unknownFormatsMsg : string :=
  "unknownFormats must contain an array of unknownFormats, 'ignore' or true".

(** [validateOptions]: the error it throws, or the warnings it prints
    (the last warning is printed with quotation marks around the two
    option names). *)
Definition validateOptions (options : Options) : ErrObj + list string :=
  if negb (Js.truthy (apiSpec options)) then
    inl (PlainError "apiSpec required.")
  else
  match securityHandlers options with
  | Some _ =>
      inl (PlainError
        "securityHandlers is not supported. Use validateSecurities.handlers instead.")
  | None =>
  let w1 := if coerceTypes_truthy (coerceTypes options)
            then ["coerceTypes is deprecated."] else [] in
  match multerOpts options with
  | Some _ => inl (PlainError "multerOpts is not supported. Use fileUploader instead.")
  | None =>
  let w3 := match formats options with
            | Some (FormatsArray _) =>
                ["formats as an array is deprecated. Use object instead https://ajv.js.org/options.html#formats"]
            | _ => []
            end in
  let w4 := match validateFormats options with
            | Some (VFMode _) =>
                ["validateFormats as a string is deprecated. Set to a boolean and use ajvFormats"]
            | _ => []
            end in
  match unknownFormats options with
  | None => inr (w1 ++ w3 ++ w4)%list
  | Some (UFBool false) => inl (PlainError unknownFormatsMsg)
  | Some (UFString s) =>
      if String.eqb s "ignore"
      then inr (w1 ++ ["unknownFormats is deprecated."] ++ w3 ++ w4)%list
      else inl (PlainError unknownFormatsMsg)
  | Some _ => inr (w1 ++ ["unknownFormats is deprecated."] ++ w3 ++ w4)%list
  end
  end
  end.

(** The [for ... of options.formats] loop that turns the deprecated array
    form into an object. *)
Definition formatsOfArray (l : list Format) : list (string * AjvFormat) :=
  fold_left
    (fun formats f =>
       match fmt_type f with
       | Some t => assign (fmt_name f) (FTyped t (fmt_validate f)) formats
       | None => assign (fmt_name f) (FValidate (fmt_validate f)) formats
       end)
    l [].

Section WithBuiltins.

(** [defaultSerDes] of [framework/base.serdes], which the validator
    imports: the list of built-in SerDes entries. *)
Variable defaultSerDes : list SerDes.

(** The [serDes] branch of [normalizeOptions].  [forEach] walks the
    built-ins in order; [find] looks at the list as it is at that moment,
    entries pushed earlier in the loop included. *)
Definition normalizeSerDes (s : option (list SerDes)) : list SerDes :=
  match s with
  | None => defaultSerDes
  | Some l =>
      fold_left
        (fun serDes currentDefaultSerDes =>
           match findFormat (format currentDefaultSerDes) serDes with
           | Some _ => serDes
           | None => (serDes ++ [currentDefaultSerDes])%list
           end)
        defaultSerDes l
  end.

(** [normalizeOptions].  Writing [options.formats[format] = true] needs
    the [formats] object; the constructor has put one there. *)
Definition normalizeOptions (options : Options) : ErrObj + Options :=
  let formats1 :=
    match formats options with
    | Some (FormatsArray l) => Some (FormatsObject (formatsOfArray l))
    | f => f
    end in
  let serDes1 := normalizeSerDes (serDes options) in
  let '(validateFormats1, ajvFormats1) :=
    match validateFormats options with
    | Some (VFMode m) =>
        (Some (VFBool true),
         match ajvFormats options with
         | None => Some (mkAjvFormats m)
         | a => a
         end)
    | Some (VFBool true) =>
        (Some (VFBool true),
         match ajvFormats options with
         | None => Some (mkAjvFormats "fast")
         | a => a
         end)
    | v => (v, ajvFormats options)
    end in
  let finish formats2 validateFormats2 :=
    inr {| apiSpec := apiSpec options;
           validateApiSpec := validateApiSpec options;
           validateRequests := validateRequests options;
           validateResponses := validateResponses options;
           validateSecurity := validateSecurity options;
           ignorePaths := ignorePaths options;
           ignoreUndocumented := ignoreUndocumented options;
           securityHandlers := securityHandlers options;
           coerceTypes := coerceTypes options;
           useRequestUrl := useRequestUrl options;
           unknownFormats := unknownFormats options;
           serDes := Some serDes1;
           formats := formats2;
           ajvFormats := ajvFormats1;
           fileUploader := fileUploader options;
           multerOpts := multerOpts options;
           refParser := refParser options;
           operationHandlers := operationHandlers options;
           validateFormats := validateFormats2 |} in
  match unknownFormats options with
  | Some (UFArray []) => finish formats1 validateFormats1
  | Some (UFArray l) =>
      match formats1 with
      | Some (FormatsObject o) =>
          finish
            (Some (FormatsObject
                     (fold_left (fun fs f => assign f FTrue fs) l o)))
            validateFormats1
      | _ => inl (TypeError "Cannot set properties of undefined")
      end
  | Some (UFString "ignore") => finish formats1 (Some (VFBool false))
  | _ => finish formats1 validateFormats1
  end.

(** An [OpenApiValidator] object.  [ajvOpts] is [new AjvOptions(options)],
    a view of the same options, and is not kept apart. *)
Record OpenApiValidator : Type := mkValidator {
  options : Options
}.

(** [new OpenApiValidator(options)]: the object, or what the constructor
    throws. *)
Definition construct (o : Options) : ErrObj + OpenApiValidator :=
  let o := prepare o in
  match validateOptions o with
  | inl e => inl e
  | inr _ =>
      match normalizeOptions o with
      | inl e => inl e
      | inr n => inr (mkValidator n)
      end
  end.

End WithBuiltins.

End Validator.

(* ================================================================== *)
(** ** openapi.validator.ts: the middleware chain *)
(* ================================================================== *)

Module Chain.
Import Opts Validator.
Local Open Scope nat_scope.
Local Open Scope list_scope.

Record RouteMetadata : Type := mkRoute {
  basePath : string;
  expressRoute : string;
  openApiRoute : string;
  method : string;
  pathParams : list string
}.

(** [Spec] of the spec loader: what the spec promise fulfils with. *)
Record Spec : Type := mkSpec {
  spec_apiDoc : Document;
  spec_basePaths : list string;
  spec_routes : list RouteMetadata;
  spec_serial : Z
}.

Record OpenApiContext : Type := mkContext {
  apiDoc : Document;
  routes : list RouteMetadata;
  serial : Z
}.

(** [MiddlewareContext].  [error] is [any]: [null] on success, else the
    value the load was rejected with. *)
Record MiddlewareContext : Type := mkMwContext {
  context : option OpenApiContext;
  responseApiDoc : option Document;
  error : Thrown
}.

(** The part of an Express request the chain reads: the application it
    belongs to, [baseUrl], and whatever earlier middleware attached. *)
Record Request : Type := mkRequest {
  req_id : nat;
  app : nat;
  baseUrl : string;
  openapi : option string
}.

(** What a middleware does with a request: [next()], [next(err)] (a
    [throw] inside a promise callback ends there too, through
    [.catch(next)]), or neither (it answered the request itself). *)
Inductive MwResult : Type :=
| MwNext (r : Request)
| MwError (e : Thrown)
| MwEnd.

(** How the chain is left for one request. *)
Inductive Outcome : Type :=
| Forwarded (e : Thrown)
| Continued (r : Request)
| Ended.

(** The seven middleware functions [installMiddleware] can push. *)
Inductive Stage : Type :=
| PathParamsMw
| MetadataMw
| SecurityMw
| MultipartMw
| RequestMw
| ResponseMw
| OperationHandlersMw.

(** A middleware closure built by one of the factories of
    [./middlewares], named by the factory and its arguments. *)
Inductive Mw : Type :=
| MetadataOf (c : option OpenApiContext) (d : option Document)
| SecurityOf (d : Document) (handlers : option (list (string * Fn)))
| MultipartOf (d : Document)
| RequestOf (d : Document)
| ResponseOf (d : option Document) (serial : Z).

(** An [express.Router()] with what has been installed on it. *)
Record Router : Type := mkRouter {
  rid : nat;
  params : list string;
  handlers : list (string * string * Fn)
}.

(** Where [installPathParams] registers: the application of a request or
    a router. *)
Inductive Target : Type :=
| OnApp (a : nat)
| OnRouter (id : nat).

(** Calls the chain makes, in the order it makes them. *)
Inductive Call : Type :=
| CallInstallPathParams (t : Target) (c : option OpenApiContext)
| CallParam (t : Target) (p : string)
| CallNew (m : Mw)
| CallMw (m : Mw) (r : Request)
| CallNewRouter (id : nat)
| CallDispatch (id : nat) (r : Request).

(** The modules the validator imports and that are not part of it:
    schema preprocessing ([apiDocRes] of its result, which may be
    [null]), the context constructor, the middleware factories (whether
    building the closure throws, and what the closure does with a
    request), the operation resolver and Express routing. *)
Record Collaborators : Type := mkCollaborators {
  preProcess : Document -> Options -> Thrown + option Document;
  newOpenApiContext : Spec -> Options -> Thrown + OpenApiContext;
  build : Mw -> Options -> option Thrown;
  runMw : Mw -> Options -> Request -> MwResult;
  resolve : Resolver -> string -> RouteMetadata -> Document -> Thrown + Fn;
  dispatch : Router -> Request -> MwResult
}.

(** How the spec promise settles. *)
Inductive SpecOutcome : Type :=
| Resolved (s : Spec)
| Rejected (e : Thrown).

(** A request inside the chain: about to enter the middleware at the
    head of [chain], or suspended in [pContext.then(...)] of middleware
    [mw] with [rest] still to come. *)
Inductive Task : Type :=
| Enter (r : Request) (chain : list Stage)
| Then (r : Request) (mw : Stage) (rest : list Stage).

(** The closure variables of one [installMiddleware] call, the requests
    inside the chain, the requests that left it, and the calls made. *)
Record State : Type := mkState {
  pContext : option MiddlewareContext;
  inited : bool;
  metamw : option Mw;
  scmw : option Mw;
  fumw : option Mw;
  reqmw : option Mw;
  resmw : option Mw;
  router : option Router;
  routersMade : nat;
  tasks : list Task;
  finished : list (Request * Outcome);
  log : list Call
}.

Definition init : State :=
  {| pContext := None; inited := false;
     metamw := None; scmw := None; fumw := None; reqmw := None;
     resmw := None; router := None; routersMade := 0;
     tasks := []; finished := []; log := [] |}.

(** What happens from outside: a request reaches the chain, the spec
    promise settles, or the event loop runs the [i]-th waiting task. *)
Inductive Action : Type :=
| Arrive (r : Request)
| Settle (o : SpecOutcome)
| Run (i : nat).

Definition nullContextError : Thrown :=
  Js.Obj (TypeError "Cannot read properties of null").

(** [[...new Set(pathParams)]]: first occurrences, in order. *)
Definition uniq (l : list string) : list string :=
  fold_left
    (fun seen p => if existsb (String.eqb p) seen then seen else seen ++ [p])
    l [].

(** [installPathParams(app, context)]: the names handed to [app.param],
    in order.  Reading [context.routes] throws when the context is
    [null]. *)
Definition installPathParams (c : option OpenApiContext)
  : Thrown + list string :=
  match c with
  | None => inl nullContextError
  | Some ctx =>
      let collected :=
        fold_left
          (fun acc route =>
             if 0 <? List.length (pathParams route)
             then acc ++ pathParams route else acc)
          (routes ctx) [] in
      inr (uniq collected)
  end.

Definition lower_ascii (c : Ascii.ascii) : Ascii.ascii :=
  let n := Ascii.nat_of_ascii c in
  if (65 <=? n) && (n <=? 90) then Ascii.ascii_of_nat (n + 32) else c.

(** [String.prototype.toLowerCase] on ASCII method names. *)
Fixpoint toLowerCase (s : string) : string :=
  match s with
  | EmptyString => EmptyString
  | String c s' => String (lower_ascii c) (toLowerCase s')
  end.

(** [expressRoute.indexOf(baseUrl) === 0 ?
     expressRoute.substring(baseUrl.length) : expressRoute]. *)
Definition routePath (baseUrl expressRoute : string) : string :=
  if String.prefix baseUrl expressRoute
  then String.substring (String.length baseUrl)
         (String.length expressRoute - String.length baseUrl) expressRoute
  else expressRoute.

Definition noResolverError : Thrown :=
  Js.Obj (TypeError "Cannot read properties of null (reading 'resolver')").

(** [isOperationHandlerOptions]: a truthy [resolver] property.  Reading
    the property throws on [null] and [undefined]; [false] and a string
    have none. *)
Definition isOperationHandlerOptions (h : OperationHandlers)
  : Thrown + option OperationHandlerOptions :=
  match h with
  | OHObject o =>
      match oh_resolver o with Some _ => inr (Some o) | None => inr None end
  | OHNull | OHUndefined => inl noResolverError
  | OHFalse | OHString _ => inr None
  end.

Definition operationHandlers_truthy (h : OperationHandlers) : bool :=
  match h with
  | OHObject _ => true
  | OHString s => negb (String.eqb s "")
  | _ => false
  end.

(** *** State updates *)

Definition set_pContext (mc : MiddlewareContext) (s : State) : State :=
  mkState (Some mc) (inited s) (metamw s) (scmw s) (fumw s) (reqmw s)
    (resmw s) (router s) (routersMade s) (tasks s) (finished s) (log s).

Definition set_inited (b : bool) (s : State) : State :=
  mkState (pContext s) b (metamw s) (scmw s) (fumw s) (reqmw s)
    (resmw s) (router s) (routersMade s) (tasks s) (finished s) (log s).

Definition set_metamw (m : Mw) (s : State) : State :=
  mkState (pContext s) (inited s) (Some m) (scmw s) (fumw s) (reqmw s)
    (resmw s) (router s) (routersMade s) (tasks s) (finished s) (log s).

Definition set_scmw (m : Mw) (s : State) : State :=
  mkState (pContext s) (inited s) (metamw s) (Some m) (fumw s) (reqmw s)
    (resmw s) (router s) (routersMade s) (tasks s) (finished s) (log s).

Definition set_fumw (m : Mw) (s : State) : State :=
  mkState (pContext s) (inited s) (metamw s) (scmw s) (Some m) (reqmw s)
    (resmw s) (router s) (routersMade s) (tasks s) (finished s) (log s).

Definition set_reqmw (m : Mw) (s : State) : State :=
  mkState (pContext s) (inited s) (metamw s) (scmw s) (fumw s) (Some m)
    (resmw s) (router s) (routersMade s) (tasks s) (finished s) (log s).

Definition set_resmw (m : Mw) (s : State) : State :=
  mkState (pContext s) (inited s) (metamw s) (scmw s) (fumw s) (reqmw s)
    (Some m) (router s) (routersMade s) (tasks s) (finished s) (log s).

Definition set_router (rt : Router) (s : State) : State :=
  mkState (pContext s) (inited s) (metamw s) (scmw s) (fumw s) (reqmw s)
    (resmw s) (Some rt) (routersMade s) (tasks s) (finished s) (log s).

Definition bump_routers (s : State) : State :=
  mkState (pContext s) (inited s) (metamw s) (scmw s) (fumw s) (reqmw s)
    (resmw s) (router s) (S (routersMade s)) (tasks s) (finished s) (log s).

Definition set_tasks (t : list Task) (s : State) : State :=
  mkState (pContext s) (inited s) (metamw s) (scmw s) (fumw s) (reqmw s)
    (resmw s) (router s) (routersMade s) t (finished s) (log s).

Definition add_finished (f : Request * Outcome) (s : State) : State :=
  mkState (pContext s) (inited s) (metamw s) (scmw s) (fumw s) (reqmw s)
    (resmw s) (router s) (routersMade s) (tasks s) (finished s ++ [f]) (log s).

Definition add_log (c : list Call) (s : State) : State :=
  mkState (pContext s) (inited s) (metamw s) (scmw s) (fumw s) (reqmw s)
    (resmw s) (router s) (routersMade s) (tasks s) (finished s) (log s ++ c).

Definition add_task (t : Task) (s : State) : State :=
  set_tasks (tasks s ++ [t]) s.

(** Take the [i]-th task out of the list. *)
Fixpoint pick (i : nat) (l : list Task) : option (Task * list Task) :=
  match l, i with
  | [], _ => None
  | t :: l', 0 => Some (t, l')
  | t :: l', S i' =>
      match pick i' l' with
      | Some (x, rest) => Some (x, t :: rest)
      | None => None
      end
  end.

Section Installed.

Variable K : Collaborators.
Variable self : OpenApiValidator.

(** [x || make()]: the kept closure, or the closure the factory returns,
    or what the factory throws; and the factory call if one was made. *)
Definition memo (slot : option Mw) (fresh : Mw)
  : (Thrown + Mw) * list Call :=
  match slot with
  | Some m => (inr m, [])
  | None =>
      match build K fresh (options self) with
      | Some e => (inl e, [CallNew fresh])
      | None => (inr fresh, [CallNew fresh])
      end
  end.

(** The array [installMiddleware] returns. *)
Definition installMiddleware : list Stage :=
  [PathParamsMw; MetadataMw; SecurityMw]
  ++ (if on (fileUploader (options self)) then [MultipartMw] else [])
  ++ (if on (validateRequests (options self)) then [RequestMw] else [])
  ++ (if on (validateResponses (options self)) then [ResponseMw] else [])
  ++ (if operationHandlers_truthy (operationHandlers (options self))
      then [OperationHandlersMw] else []).

Definition failed (e : Thrown) : MiddlewareContext :=
  {| context := None; responseApiDoc := None; error := e |}.

(** [pContext = spec.then(...).catch(...)]: the value it fulfils with
    once [spec] has settled.  A throw inside the [then] callback lands in
    the same [catch] as a rejection of [spec]. *)
Definition buildContext (o : SpecOutcome) : MiddlewareContext :=
  match o with
  | Rejected e => failed e
  | Resolved spec =>
      match preProcess K (spec_apiDoc spec) (options self) with
      | inl e => failed e
      | inr apiDocRes =>
          match newOpenApiContext K spec (options self) with
          | inl e => failed e
          | inr c =>
              {| context := Some c;
                 responseApiDoc := apiDocRes;
                 error := Js.P Js.Null |}
          end
      end
  end.

(** The callback of [pathParamsMiddleware]. *)
Definition pathParamsCallback (mc : MiddlewareContext) (r : Request)
  (st : State) : MwResult * State :=
  if Js.truthy (error mc) then (MwError (error mc), st)
  else if inited st then (MwNext r, st)
  else
    let st1 := add_log [CallInstallPathParams (OnApp (app r)) (context mc)] st in
    match installPathParams (context mc) with
    | inl e => (MwError e, st1)
    | inr names =>
        (MwNext r,
         set_inited true (add_log (map (CallParam (OnApp (app r))) names) st1))
    end.

(** The callback of [metadataMiddleware].  Here and in the callbacks
    below, a factory that throws leaves its variable unset: the
    assignment [x = x || make()] is not reached, and the error goes to
    [.catch(next)]. *)
Definition metadataCallback (mc : MiddlewareContext) (r : Request)
  (st : State) : MwResult * State :=
  match memo (metamw st) (MetadataOf (context mc) (responseApiDoc mc)) with
  | (inl e, made) => (MwError e, add_log made st)
  | (inr m, made) =>
      (runMw K m (options self) r,
       add_log (made ++ [CallMw m r]) (set_metamw m st))
  end.

(** [validateSecurity?.handlers]. *)
Definition securityHandlersOf (o : Options) : option (list (string * Fn)) :=
  match validateSecurity o with
  | Some (IsObj v) => sec_handlers v
  | _ => None
  end.

(** [components?.securitySchemes]. *)
Definition schemesOf (d : Document)
  : option (list (string * SecurityScheme)) :=
  match components d with
  | Some c => securitySchemes c
  | None => None
  end.

(** The callback of [securityMiddleware].  Its parameter pattern
    [{ context: { apiDoc } }] throws on a [null] context. *)
Definition securityCallback (mc : MiddlewareContext) (r : Request)
  (st : State) : MwResult * State :=
  match context mc with
  | None => (MwError nullContextError, st)
  | Some ctx =>
      match on (validateSecurity (options self)), schemesOf (apiDoc ctx) with
      | true, Some _ =>
          match memo (scmw st)
                  (SecurityOf (apiDoc ctx) (securityHandlersOf (options self)))
          with
          | (inl e, made) => (MwError e, add_log made st)
          | (inr m, made) =>
              (runMw K m (options self) r,
               add_log (made ++ [CallMw m r]) (set_scmw m st))
          end
      | _, _ => (MwNext r, st)
      end
  end.

(** The callback of [multipartMiddleware]. *)
Definition multipartCallback (mc : MiddlewareContext) (r : Request)
  (st : State) : MwResult * State :=
  match context mc with
  | None => (MwError nullContextError, st)
  | Some ctx =>
      match memo (fumw st) (MultipartOf (apiDoc ctx)) with
      | (inl e, made) => (MwError e, add_log made st)
      | (inr m, made) =>
          (runMw K m (options self) r,
           add_log (made ++ [CallMw m r]) (set_fumw m st))
      end
  end.

(** The callback of [requestMiddleware]. *)
Definition requestCallback (mc : MiddlewareContext) (r : Request)
  (st : State) : MwResult * State :=
  match context mc with
  | None => (MwError nullContextError, st)
  | Some ctx =>
      match memo (reqmw st) (RequestOf (apiDoc ctx)) with
      | (inl e, made) => (MwError e, add_log made st)
      | (inr m, made) =>
          (runMw K m (options self) r,
           add_log (made ++ [CallMw m r]) (set_reqmw m st))
      end
  end.

(** The callback of [responseMiddleware]. *)
Definition responseCallback (mc : MiddlewareContext) (r : Request)
  (st : State) : MwResult * State :=
  match context mc with
  | None => (MwError nullContextError, st)
  | Some ctx =>
      match memo (resmw st) (ResponseOf (responseApiDoc mc) (serial ctx)) with
      | (inl e, made) => (MwError e, add_log made st)
      | (inr m, made) =>
          (runMw K m (options self) r,
           add_log (made ++ [CallMw m r]) (set_resmw m st))
      end
  end.

(** The [for (const route of context.routes)] loop of
    [installOperationHandlers]: one handler per route when the options
    hold a resolver, none otherwise; a resolver that throws ends it, and
    so does the test of the options when it throws. *)
Fixpoint installRoutes (baseUrl : string) (d : Document)
  (rs : list RouteMetadata) (acc : list (string * string * Fn))
  : Thrown + list (string * string * Fn) :=
  match rs with
  | [] => inr acc
  | route :: rs' =>
      match isOperationHandlerOptions (operationHandlers (options self)) with
      | inl e => inl e
      | inr (Some o) =>
          match oh_resolver o with
          | Some resolver =>
              match resolve K resolver (oh_basePath o) route d with
              | inl e => inl e
              | inr handler =>
                  installRoutes baseUrl d rs'
                    (acc ++ [(toLowerCase (method route),
                              routePath baseUrl (expressRoute route),
                              handler)])
              end
          | None => installRoutes baseUrl d rs' acc
          end
      | inr None => installRoutes baseUrl d rs' acc
      end
  end.

(** [installOperationHandlers(baseUrl, context)]: a fresh router, the
    path parameters installed on it, then the routes.  The resolver's
    results are awaited one after the other; the body is taken here as
    one step. *)
Definition installOperationHandlers (baseUrl : string)
  (c : option OpenApiContext) (st : State) : (Thrown + Router) * State :=
  let id := routersMade st in
  let st1 := add_log [CallNewRouter id;
                      CallInstallPathParams (OnRouter id) c]
               (bump_routers st) in
  match c, installPathParams c with
  | Some ctx, inr names =>
      let st2 := add_log (map (CallParam (OnRouter id)) names) st1 in
      match installRoutes baseUrl (apiDoc ctx) (routes ctx) [] with
      | inl e => (inl e, st2)
      | inr hs => (inr (mkRouter id names hs), st2)
      end
  | _, inl e => (inl e, st1)
  | None, _ => (inl nullContextError, st1)
  end.

(** The two [then] callbacks of [operationHandlersMiddleware], reached
    when [router] was still [null] on entry. *)
Definition operationHandlersCallback (mc : MiddlewareContext) (r : Request)
  (st : State) : MwResult * State :=
  match installOperationHandlers (baseUrl r) (context mc) st with
  | (inl e, st1) => (MwError e, st1)
  | (inr installedRouter, st1) =>
      (dispatch K installedRouter r,
       add_log [CallDispatch (rid installedRouter) r]
         (set_router installedRouter st1))
  end.

Definition callback (mw : Stage)
  : MiddlewareContext -> Request -> State -> MwResult * State :=
  match mw with
  | PathParamsMw => pathParamsCallback
  | MetadataMw => metadataCallback
  | SecurityMw => securityCallback
  | MultipartMw => multipartCallback
  | RequestMw => requestCallback
  | ResponseMw => responseCallback
  | OperationHandlersMw => operationHandlersCallback
  end.

(** What [next] does with the result of a middleware for request [r]:
    [next()] enters the following middleware, [next(err)] and a
    middleware that does not call [next] end the chain for [r]. *)
Definition continue (res : MwResult) (r : Request) (rest : list Stage)
  (st : State) : State :=
  match res with
  | MwNext r' => add_task (Enter r' rest) st
  | MwError e => add_finished (r, Forwarded e) st
  | MwEnd => add_finished (r, Ended) st
  end.

(** One run-to-completion step of the event loop.

    - a request that arrives is handed to the first middleware;
    - the spec promise settles once, and [pContext] with it;
    - entering a middleware attaches its callback to [pContext]
      ([operationHandlersMiddleware] first looks at [router] and
      dispatches at once when it is set); past the last middleware the
      request goes on to the rest of the application;
    - a callback attached to [pContext] runs only once [pContext] is
      fulfilled.

    Which task runs next is the caller's choice: the order of the
    microtask queue is one such choice, and a middleware that calls
    [next] only after some I/O is another, in which the task it leaves
    behind is run later. *)
Definition step (st : State) (a : Action) : State :=
  match a with
  | Arrive r => add_task (Enter r installMiddleware) st
  | Settle o =>
      match pContext st with
      | None => set_pContext (buildContext o) st
      | Some _ => st
      end
  | Run i =>
      match pick i (tasks st) with
      | None => st
      | Some (Enter r [], others) =>
          add_finished (r, Continued r) (set_tasks others st)
      | Some (Enter r (mw :: rest), others) =>
          match mw, router st with
          | OperationHandlersMw, Some rt =>
              continue (dispatch K rt r) r rest
                (add_log [CallDispatch (rid rt) r] (set_tasks others st))
          | _, _ => set_tasks (others ++ [Then r mw rest]) st
          end
      | Some (Then r mw rest, others) =>
          match pContext st with
          | None => st
          | Some mc =>
              let '(res, st') := callback mw mc r (set_tasks others st) in
              continue res r rest st'
          end
      end
  end.

Definition run (st : State) (acts : list Action) : State :=
  fold_left step acts st.

End Installed.

(** *** Observations on a run *)

(** Calls of [installPathParams] with a context, made on an
    application. *)
Definition isAppInstall (c : Call) : bool :=
  match c with
  | CallInstallPathParams (OnApp _) (Some _) => true
  | _ => false
  end.

(** All calls of [installPathParams]. *)
Definition isInstall (c : Call) : bool :=
  match c with
  | CallInstallPathParams _ _ => true
  | _ => false
  end.

(** Calls that build or run the security middleware. *)
Definition isSecurityCall (c : Call) : bool :=
  match c with
  | CallNew (SecurityOf _ _) => true
  | CallMw (SecurityOf _ _) _ => true
  | _ => false
  end.

Definition count (p : Call -> bool) (l : list Call) : nat :=
  List.length (filter p l).

Definition isSettle (a : Action) : bool :=
  match a with Settle _ => true | _ => false end.

Definition arrivals (acts : list Action) : nat :=
  List.length (filter (fun a => match a with Arrive _ => true | _ => false end) acts).

(** A request in the chain that has not got past the first middleware. *)
Definition atFirst (chain : list Stage) (t : Task) : Prop :=
  match t with
  | Enter _ c => c = chain
  | Then _ mw _ => mw = PathParamsMw
  end.

End Chain.

(* ================================================================== *)
(** ** Route resolution *)
(* ================================================================== *)

Module RouteIndex.
Import Types.

(** Modelled from the spec: a RouteEntry of the Route Index.  The code
    that builds and searches the index (the metadata middleware and the
    route matcher) is not among the sources; [matches] stands for "the
    path template's regex-matchable form". *)
Record RouteEntry : Type := mkEntry {
  template : string;
  entry_method : string;
  matches : string -> bool;
  paramNames : list string
}.

Inductive Resolution : Type :=
| Matched (e : RouteEntry)
| MethodMismatch (err : HttpError)
| Unknown (err : HttpError)
| PassThrough.

(** Modelled from the spec: "the methods that do match that path", in
    declaration order. *)
Definition allowed (index : list RouteEntry) (p : string) : list string :=
  map entry_method (filter (fun e => matches e p) index).

(** Modelled from the spec: Resolve(method, path) of section 4.1, which
    the sources do not contain.  "Walk entries in declaration order;
    first template whose regex matches the path and whose method matches
    wins.  If the path matches some entry under a different method,
    resolution reports method mismatch (405, with an Allow header
    listing the methods that do match that path) rather than not found
    (404).  Unmatched entirely: not found unless ignoreUndocumented is
    set, in which case the request skips validation."  The errors are
    built with the constructors of [framework/types.ts]. *)
Definition resolve (ignoreUndocumented : bool) (index : list RouteEntry)
  (m p : string) : Resolution :=
  match find (fun e => matches e p && String.eqb (entry_method e) m) index with
  | Some e => Matched e
  | None =>
      match allowed index p with
      | [] =>
          if ignoreUndocumented then PassThrough
          else Unknown (newNotFound
                 {| s_path := Some p; s_message := Some "not found";
                    s_headers := None; s_overrideStatus := None;
                    s_errors := None |})
      | ms =>
          MethodMismatch (newMethodNotAllowed
            {| s_path := Some p;
               s_message := Some (m ++ " method not allowed");
               s_headers := Some (mkHeaders (Some (String.concat ", " ms)));
               s_overrideStatus := None;
               s_errors := None |})
      end
  end.

End RouteIndex.

(* ================================================================== *)
(** ** Invariants of the middleware chain *)
(* ================================================================== *)

Module ChainInvariants.
Import Opts Validator Chain.
Local Open Scope nat_scope.
Local Open Scope list_scope.

(** No slot other than [scmw] holds a security middleware. *)
Definition slots_ok (st : State) : Prop :=
  forall x, metamw st = Some x \/ fumw st = Some x \/ reqmw st = Some x \/
            resmw st = Some x ->
            match x with SecurityOf _ _ => False | _ => True end.

(** The loaded document declares no security schemes (or nothing was
    loaded). *)
Definition no_schemes (mc : MiddlewareContext) : Prop :=
  match context mc with
  | Some c => schemesOf (apiDoc c) = None
  | None => True
  end.

(** What a callback may change: not [pContext], the tasks or the
    finished requests; the guard [inited] rises exactly with a call of
    [installPathParams] on an application with a context; and without
    security schemes in the document, [scmw] and the security calls stay
    as they are. *)
Definition effect (mc : MiddlewareContext) (st st' : State) : Prop :=
  pContext st' = pContext st /\ tasks st' = tasks st /\
  finished st' = finished st /\ slots_ok st' /\
  count isAppInstall (log st') + Nat.b2n (inited st)
    = count isAppInstall (log st) + Nat.b2n (inited st') /\
  (no_schemes mc ->
     scmw st' = scmw st /\
     count isSecurityCall (log st') = count isSecurityCall (log st)).

Section Installed.

Variable K : Collaborators.
Variable self : OpenApiValidator.

(** [pContext], once fulfilled, holds what [buildContext] made. *)
Definition built (st : State) : Prop :=
  forall mc, pContext st = Some mc -> exists o, mc = buildContext K self o.

(** Nothing about security has happened as long as the load is pending,
    has failed, or gave a document without security schemes. *)
Definition quiet (st : State) : Prop :=
  match pContext st with
  | Some mc => no_schemes mc
  | None => True
  end ->
  scmw st = None /\ count isSecurityCall (log st) = 0.

(** The invariant of the chain. *)
Definition Inv (st : State) : Prop :=
  slots_ok st /\
  count isAppInstall (log st) = Nat.b2n (inited st) /\
  quiet st /\
  built st.

(** Two states that differ in the tasks and the finished requests
    only. *)
Definition same_core (st st' : State) : Prop :=
  pContext st' = pContext st /\ inited st' = inited st /\
  scmw st' = scmw st /\
  count isAppInstall (log st') = count isAppInstall (log st) /\
  count isSecurityCall (log st') = count isSecurityCall (log st) /\
  metamw st' = metamw st /\ fumw st' = fumw st /\
  reqmw st' = reqmw st /\ resmw st' = resmw st.

(** The load is pending and nothing has got past the first
    middleware. *)
Definition Pending (st : State) : Prop :=
  pContext st = None /\ Forall (atFirst (installMiddleware self)) (tasks st) /\
  finished st = [] /\ log st = [].

(** The load failed with [e]: the requests that left the chain were
    handed [e], and the others are still at the first middleware. *)
Definition Failed (e : Thrown) (st : State) : Prop :=
  pContext st = Some (failed e) /\ Forall (atFirst (installMiddleware self)) (tasks st) /\
  Forall (fun p => snd p = Forwarded e) (finished st) /\ log st = [].

Definition total (st : State) : nat :=
  List.length (tasks st) + List.length (finished st).

Definition arrival (a : Action) : nat :=
  match a with Arrive _ => 1 | _ => 0 end.

End Installed.

(** Steps a task still needs at the first middleware: one to attach its
    callback, one to run it. *)
Definition weight (t : Task) : nat :=
  match t with Enter _ _ => 2 | Then _ _ _ => 1 end.

Definition weights (l : list Task) : nat := list_sum (map weight l).

End ChainInvariants.

(* ================================================================== *)
(** ** Sample inputs *)
(* ================================================================== *)

Module Samples.
Import Types RouteIndex Opts Validator.
Local Open Scope list_scope.
Local Open Scope Z_scope.

(** Arguments for the error constructors. *)
Definition sampleItem : ValidationErrorItem :=
  mkItem (Some "/body/name") (Some "must be string") None.

Definition sampleCreate (s : Z) : CreateArg :=
  mkCreateArg s "/pets" (Some "boom") (Some [sampleItem]) None None.

(** The same argument carrying [overrideStatus] and [headers]. *)
Definition sampleOverride (s o : Z) : CreateArg :=
  mkCreateArg s "/pets" (Some "boom") (Some [sampleItem]) (Some o)
    (Some (mkHeaders (Some "GET"))).

Definition emptyErrors : HttpErrorArg :=
  mkHttpErrorArg 400 (Some "/pets") "Bad Request" (Some "bad")
    None (Some []).

Definition oneError : HttpErrorArg :=
  mkHttpErrorArg 400 (Some "/pets") "Bad Request" (Some "bad")
    None (Some [sampleItem]).

Definition noErrors : HttpErrorArg :=
  mkHttpErrorArg 400 (Some "/pets") "Bad Request" (Some "bad") None None.

(** A small index: [/pets] answers GET and POST, [/pets/{id}] answers
    GET. *)
Definition petsIndex : list RouteEntry :=
  [ mkEntry "/pets" "GET" (String.eqb "/pets") [];
    mkEntry "/pets" "POST" (String.eqb "/pets") [];
    mkEntry "/pets/{id}" "GET" (String.prefix "/pets/") ["id"] ].

(** Options that name a spec file and nothing else. *)
Definition minimal : Options :=
  {| apiSpec := Js.P (Js.Str "./api.yaml");
     validateApiSpec := None; validateResponses := None;
     validateRequests := None; validateSecurity := None;
     ignorePaths := None; ignoreUndocumented := None;
     securityHandlers := None; coerceTypes := None; useRequestUrl := None;
     unknownFormats := None; serDes := None; formats := None;
     ajvFormats := None; fileUploader := None; multerOpts := None;
     refParser := None; operationHandlers := OHUndefined;
     validateFormats := None |}.

Definition with_apiSpec (a : Js.Val Document) (o : Options) : Options :=
  mkOptions a (validateApiSpec o) (validateResponses o) (validateRequests o)
    (validateSecurity o) (ignorePaths o) (ignoreUndocumented o)
    (securityHandlers o) (coerceTypes o) (useRequestUrl o) (unknownFormats o)
    (serDes o) (formats o) (ajvFormats o) (fileUploader o) (multerOpts o)
    (refParser o) (operationHandlers o) (validateFormats o).

Definition with_validateResponses (v : option (OrBool ValidateResponseOpts))
  (o : Options) : Options :=
  mkOptions (apiSpec o) (validateApiSpec o) v (validateRequests o)
    (validateSecurity o) (ignorePaths o) (ignoreUndocumented o)
    (securityHandlers o) (coerceTypes o) (useRequestUrl o) (unknownFormats o)
    (serDes o) (formats o) (ajvFormats o) (fileUploader o) (multerOpts o)
    (refParser o) (operationHandlers o) (validateFormats o).

Definition with_serDes (s : option (list SerDes)) (o : Options) : Options :=
  mkOptions (apiSpec o) (validateApiSpec o) (validateResponses o)
    (validateRequests o) (validateSecurity o) (ignorePaths o)
    (ignoreUndocumented o) (securityHandlers o) (coerceTypes o)
    (useRequestUrl o) (unknownFormats o) s (formats o) (ajvFormats o)
    (fileUploader o) (multerOpts o) (refParser o) (operationHandlers o)
    (validateFormats o).

(** Built-ins for [date] and [date-time], and a user entry that takes
    the place of [date]. *)
Definition dateSerDes : SerDes := mkSerDes "date" (Some 1%nat) (Some 2%nat).
Definition dateTimeSerDes : SerDes := mkSerDes "date-time" (Some 3%nat) (Some 4%nat).
Definition builtins : list SerDes := [dateSerDes; dateTimeSerDes].
Definition userDate : SerDes := mkSerDes "date" (Some 11%nat) (Some 12%nat).
Definition userMongo : SerDes := mkSerDes "mongo-objectid" None (Some 13%nat).

Definition overrideDate : Options :=
  with_serDes (Some [userMongo; userDate]) minimal.

(** What [normalizeOptions] returns for a prepared [o]. *)
Definition normalized (o : Options) : Options :=
  match normalizeOptions builtins (prepare o) with
  | inr n => n
  | inl _ => o
  end.

Definition normalizedMinimal : Options := Eval cbv in normalized minimal.
Definition normalizedOverride : Options := Eval cbv in normalized overrideDate.

(** Collaborators that let every request through. *)
Definition passThrough : Chain.Collaborators :=
  {| Chain.preProcess :=
       fun d o => inr (if on (validateResponses o) then Some d else None);
     Chain.build := fun _ _ => None;
     Chain.newOpenApiContext :=
       fun s _ => inr (Chain.mkContext (Chain.spec_apiDoc s)
                         (Chain.spec_routes s) (Chain.spec_serial s));
     Chain.runMw := fun _ _ r => Chain.MwNext r;
     Chain.resolve := fun _ _ _ _ => inr 7%nat;
     Chain.dispatch := fun _ r => Chain.MwNext r |}.

(** A document without [components], served under [/v1]. *)
Definition petsDoc : Document := mkDocument "3.0.3" ["/pets/{id}"] None.

Definition petsSpec : Chain.Spec :=
  Chain.mkSpec petsDoc ["/v1"]
    [Chain.mkRoute "/v1" "/v1/pets/:id" "/pets/{id}" "GET" ["id"]] 1.

Definition petsContext : Chain.OpenApiContext :=
  Chain.mkContext petsDoc (Chain.spec_routes petsSpec) 1.

(** What the load gives when responses are not validated: no response
    document. *)
Definition loaded : Chain.MiddlewareContext :=
  Chain.mkMwContext (Some petsContext) None (Js.P Js.Null).

(** Options with operation handlers and every validation switched
    off. *)
Definition handlerOpts : Options :=
  mkOptions (Js.P (Js.Str "./api.yaml")) None None (Some (IsBool false))
    (Some (IsBool false)) None None None None None None None None None
    (Some (IsBool false)) None None (OHString "./handlers") None.

Definition constructed (o : Options) : OpenApiValidator :=
  match construct builtins o with
  | inr v => v
  | inl _ => mkValidator o
  end.

Definition plainValidator : OpenApiValidator := Eval cbv in constructed minimal.
Definition handlerValidator : OpenApiValidator :=
  Eval cbv in constructed handlerOpts.

Definition request (n : nat) : Chain.Request :=
  Chain.mkRequest n 0 "/v1" None.

Definition enoent : Thrown := Js.Obj (PlainError "ENOENT: no such file").

(** Two requests arrive while the spec is loading. *)
Definition beforeLoad : list Chain.Action :=
  [Chain.Arrive (request 1); Chain.Run 0; Chain.Arrive (request 2)].

(** A third request arrives afterwards. *)
Definition afterLoad : list Chain.Action :=
  [Chain.Run 0; Chain.Arrive (request 3); Chain.Run 0; Chain.Run 1].

(** The spec loads, one request arrives and is taken through the whole
    chain of [handlerValidator]: four middlewares, entered and called
    back, and the step past the last one. *)
Definition oneRequest : list Chain.Action :=
  [Chain.Settle (Chain.Resolved petsSpec); Chain.Arrive (request 1)]
  ++ repeat (Chain.Run 0) 9.

(** The spec loads and one request waits in [pathParamsMiddleware]. *)
Definition atPathParams : list Chain.Action :=
  [Chain.Settle (Chain.Resolved petsSpec); Chain.Arrive (request 1);
   Chain.Run 0].

(** The spec loads and one request waits in [securityMiddleware]. *)
Definition atSecurity : list Chain.Action :=
  [Chain.Settle (Chain.Resolved petsSpec); Chain.Arrive (request 1)]
  ++ repeat (Chain.Run 0) 5.

End Samples.

(* ================================================================== *)
(** ** Observations used by the further properties *)
(* ================================================================== *)

Module Observe.
Import Types Opts Validator Chain Samples.
Local Open Scope list_scope.

(** Reading [o[k]] from an object kept as an association list. *)
Fixpoint lookup {A} (k : string) (o : list (string * A)) : option A :=
  match o with
  | [] => None
  | (k', v) :: o' => if String.eqb k k' then Some v else lookup k o'
  end.

(** What the loop of [normalizeOptions] stores for one entry of a
    [formats] array. *)
Definition formatValue (f : Format) : AjvFormat :=
  match fmt_type f with
  | Some t => FTyped t (fmt_validate f)
  | None => FValidate (fmt_validate f)
  end.

(** The last entry of a [formats] array that carries the name [n]. *)
Definition lastNamed (n : string) (l : list Format) : option Format :=
  find (fun f => String.eqb n (fmt_name f)) (rev l).

(** The statuses [HttpError.create] can hand out. *)
Definition createStatuses : list Z :=
  [400; 401; 403; 404; 405; 406; 413; 415; 500]%Z.

(** The statuses whose class does not pass [errors] on to [HttpError]. *)
Definition droppingStatuses : list Z :=
  [401; 403; 404; 405; 406; 413; 415]%Z.

(** The nine subclass constructors with the status each falls back
    to. *)
Definition subclasses : list ((SubArg -> HttpError) * Z) :=
  [ (newBadRequest, 400); (newUnauthorized, 401); (newForbidden, 403);
    (newNotFound, 404); (newMethodNotAllowed, 405);
    (newNotAcceptable, 406); (newRequestEntityTooLarge, 413);
    (newUnsupportedMediaType, 415); (newInternalServerError, 500) ]%Z.

(** The middleware whose slot a closure belongs in. *)
Definition kind (m : Mw) : Stage :=
  match m with
  | MetadataOf _ _ => MetadataMw
  | SecurityOf _ _ => SecurityMw
  | MultipartOf _ => MultipartMw
  | RequestOf _ => RequestMw
  | ResponseOf _ _ => ResponseMw
  end.

Definition stage_eqb (a b : Stage) : bool :=
  match a, b with
  | PathParamsMw, PathParamsMw | MetadataMw, MetadataMw
  | SecurityMw, SecurityMw | MultipartMw, MultipartMw
  | RequestMw, RequestMw | ResponseMw, ResponseMw
  | OperationHandlersMw, OperationHandlersMw => true
  | _, _ => false
  end.


(** The slot of middleware [s]. *)
Definition slot (s : Stage) (st : State) : option Mw :=
  match s with
  | MetadataMw => metamw st
  | SecurityMw => scmw st
  | MultipartMw => fumw st
  | RequestMw => reqmw st
  | ResponseMw => resmw st
  | _ => None
  end.

(** What no callback undoes: the settled [pContext], a set guard, a set
    [router], and a middleware kept in its slot; and what no callback
    touches: the tasks and the finished requests. *)
Definition keeps (st st' : State) : Prop :=
  pContext st' = pContext st /\
  tasks st' = tasks st /\
  finished st' = finished st /\
  (inited st = true -> inited st' = true) /\
  (router st <> None -> router st' <> None) /\
  (forall s m, slot s st = Some m -> slot s st' = Some m).

(** The part of [keeps] that also holds from step to step. *)
Definition stays (st st' : State) : Prop :=
  (forall mc, pContext st = Some mc -> pContext st' = Some mc) /\
  (inited st = true -> inited st' = true) /\
  (router st <> None -> router st' <> None) /\
  (forall s m, slot s st = Some m -> slot s st' = Some m).

(** The closures asked of the factory that serves middleware [s], in
    the order of the calls. *)
Definition news (s : Stage) (l : list Call) : list Mw :=
  flat_map (fun c => match c with
                     | CallNew m => if stage_eqb (kind m) s then [m] else []
                     | _ => []
                     end) l.

(** Each slot holds a closure of its own factory, one the factory
    returned; that call was the last call of the factory, and every call
    before it threw. *)
Definition builtOnce (K : Collaborators) (self : OpenApiValidator)
  (st : State) : Prop :=
  forall s,
    (forall m, slot s st = Some m ->
               kind m = s /\ build K m (options self) = None) /\
    exists thrown,
      Forall (fun m => build K m (options self) <> None) thrown /\
      news s (log st)
      = thrown ++ match slot s st with Some m => [m] | None => [] end.

(** The calls made on an application: [installPathParams] with a
    context, and [app.param]. *)
Definition isAppCall (c : Call) : bool :=
  match c with
  | CallInstallPathParams (OnApp _) (Some _) => true
  | CallParam (OnApp _) _ => true
  | _ => false
  end.

Definition appCalls (l : list Call) : list Call := filter isAppCall l.

(** The input options, read the way the constructor reads them. *)
Definition wantsMultipart (o : Options) : bool :=
  match fileUploader o with Some (IsBool false) => false | _ => true end.

Definition wantsRequests (o : Options) : bool :=
  match validateRequests o with Some (IsBool false) => false | _ => true end.

Definition wantsResponses (o : Options) : bool :=
  match validateResponses o with
  | Some (IsBool true) | Some (IsObj _) => true
  | _ => false
  end.

Definition wantsHandlers (o : Options) : bool :=
  match operationHandlers o with
  | OHString _ | OHObject _ => true
  | _ => false
  end.

(** The options [validateOptions] lets through. *)
Definition unknownFormatsAllowed (u : option UnknownFormats) : bool :=
  match u with
  | None => true
  | Some (UFBool b) => b
  | Some (UFString s) => String.eqb s "ignore"
  | Some (UFArray _) => true
  end.

Definition allowed (o : Options) : bool :=
  Js.truthy (apiSpec o)
  && match securityHandlers o with None => true | Some _ => false end
  && match multerOpts o with None => true | Some _ => false end
  && unknownFormatsAllowed (unknownFormats o).

(** The loop over an [unknownFormats] array: each name is set to
    [true]. *)
Definition setTrue (l : list string) (o : list (string * AjvFormat))
  : list (string * AjvFormat) :=
  fold_left (fun fs f => assign f FTrue fs) l o.

(** The [formats] object the constructor ends with, read off the input:
    the given object (an array is converted, nothing is the empty
    object), with every name of an [unknownFormats] array set to
    [true]. *)
Definition finalFormats (o : Options) : list (string * AjvFormat) :=
  let given :=
    match formats o with
    | None => []
    | Some (FormatsArray l) => formatsOfArray l
    | Some (FormatsObject x) => x
    end in
  match unknownFormats o with
  | Some (UFArray l) => setTrue l given
  | _ => given
  end.

(** [validateFormats] at the end of the constructor. *)
Definition finalValidateFormats (o : Options) : bool :=
  match unknownFormats o with
  | Some (UFString _) => false
  | _ => match validateFormats o with
         | Some (VFBool false) => false
         | _ => true
         end
  end.

(** [ajvFormats] at the end of the constructor. *)
Definition finalAjvFormats (o : Options) : option AjvFormatsOpts :=
  match ajvFormats o with
  | Some a => Some a
  | None =>
      match validateFormats o with
      | Some (VFMode m) => Some (mkAjvFormats m)
      | Some (VFBool false) => None
      | _ => Some (mkAjvFormats "fast")
      end
  end.

(** The options object a successful constructor leaves behind, field by
    field, read off the input. *)
Definition finalOptions (defaultSerDes : list SerDes) (o : Options) : Options :=
  {| apiSpec := apiSpec o;
     validateApiSpec := Some (Js.coalesce (validateApiSpec o) true);
     validateResponses :=
       expandTrue defaultResponseOpts
         (Some (Js.coalesce (validateResponses o) (IsBool false)));
     validateRequests :=
       expandTrue defaultRequestOpts
         (Some (Js.coalesce (validateRequests o) (IsBool true)));
     validateSecurity :=
       expandTrue (mkSecOpts None)
         (Some (Js.coalesce (validateSecurity o) (IsBool true)));
     ignorePaths := ignorePaths o;
     ignoreUndocumented := ignoreUndocumented o;
     securityHandlers := securityHandlers o;
     coerceTypes := coerceTypes o;
     useRequestUrl := Some (Js.coalesce (useRequestUrl o) false);
     unknownFormats := unknownFormats o;
     serDes := Some (normalizeSerDes defaultSerDes (serDes o));
     formats := Some (FormatsObject (finalFormats o));
     ajvFormats := finalAjvFormats o;
     fileUploader :=
       Some (Js.coalesce (fileUploader o) (IsObj (mkMulter None)));
     multerOpts := multerOpts o;
     refParser := Some (Js.coalesce (refParser o) Bundle);
     operationHandlers := convertOperationHandlers (operationHandlers o);
     validateFormats := Some (VFBool (finalValidateFormats o)) |}.

(** The shape the declared type [NormalizedOpenApiValidatorOpts] asks
    of the fields the constructor rewrites. *)
Definition normalized (n : Options) : Prop :=
  validateApiSpec n <> None /\
  match validateResponses n with
  | Some (IsBool false) | Some (IsObj _) => True | _ => False end /\
  match validateRequests n with
  | Some (IsBool false) | Some (IsObj _) => True | _ => False end /\
  match validateSecurity n with
  | Some (IsBool false) | Some (IsObj _) => True | _ => False end /\
  fileUploader n <> None /\
  refParser n <> None /\
  match operationHandlers n with
  | OHFalse | OHNull | OHObject _ => True | _ => False end /\
  match formats n with Some (FormatsObject _) => True | _ => False end /\
  match validateFormats n with Some (VFBool _) => True | _ => False end /\
  serDes n <> None.

(** How one handler of a router comes from one route: it is what the
    resolver returned, and it is registered under the lower-cased method
    and the route path without the mount path. *)
Definition installed (K : Collaborators) (rs : Resolver)
  (oh : OperationHandlerOptions) (b : string) (d : Document)
  (route : RouteMetadata) (h : string * string * Fn) : Prop :=
  resolve K rs (oh_basePath oh) route d = inr (snd h) /\
  fst h = (toLowerCase (method route), routePath b (expressRoute route)).

(** *** examples/1-standard-oas-3.1/app.js: the error handler *)

(** What the handler reads from [err]; [status] is missing on an error
    that is not an [HttpError]. *)
Record AnyError : Type := mkAnyError {
  e_status : option Z;
  e_message : option string;
  e_errors : option (list ValidationErrorItem)
}.

Record ErrorResponse : Type := mkErrorResponse {
  sent_status : Z;
  sent_message : option string;
  sent_errors : option (list ValidationErrorItem);
  sent_code : Z
}.

(** [res.status(err.status || 500).json({ message: err.message,
    errors: err.errors, code: err.status ?? 500 })]. *)
Definition errorHandler (err : AnyError) : ErrorResponse :=
  {| sent_status := Js.num_or (e_status err) 500;
     sent_message := e_message err;
     sent_errors := e_errors err;
     sent_code := Js.coalesce (e_status err) 500%Z |}.

(** An [HttpError] as the handler sees it. *)
Definition thrown (e : HttpError) : AnyError :=
  {| e_status := Some (status e);
     e_message := message e;
     e_errors := Some (errors e) |}.

(** *** Further sample inputs *)

Definition sampleSub (o : option Z) : SubArg :=
  mkSubArg (Some "/pets") (Some "boom") None o None.

Definition with_unknownFormats (u : option UnknownFormats) (o : Options)
  : Options :=
  mkOptions (apiSpec o) (validateApiSpec o) (validateResponses o)
    (validateRequests o) (validateSecurity o) (ignorePaths o)
    (ignoreUndocumented o) (securityHandlers o) (coerceTypes o)
    (useRequestUrl o) u (serDes o) (formats o) (ajvFormats o)
    (fileUploader o) (multerOpts o) (refParser o) (operationHandlers o)
    (validateFormats o).



Definition with_formats (f : option Formats) (o : Options) : Options :=
  mkOptions (apiSpec o) (validateApiSpec o) (validateResponses o)
    (validateRequests o) (validateSecurity o) (ignorePaths o)
    (ignoreUndocumented o) (securityHandlers o) (coerceTypes o)
    (useRequestUrl o) (unknownFormats o) (serDes o) f
    (ajvFormats o) (fileUploader o) (multerOpts o) (refParser o)
    (operationHandlers o) (validateFormats o).

Definition with_securityHandlers (h : option (list (string * Fn)))
  (o : Options) : Options :=
  mkOptions (apiSpec o) (validateApiSpec o) (validateResponses o)
    (validateRequests o) (validateSecurity o) (ignorePaths o)
    (ignoreUndocumented o) h (coerceTypes o)
    (useRequestUrl o) (unknownFormats o) (serDes o) (formats o)
    (ajvFormats o) (fileUploader o) (multerOpts o) (refParser o)
    (operationHandlers o) (validateFormats o).

Definition with_multerOpts (m : option MulterOptions) (o : Options) : Options :=
  mkOptions (apiSpec o) (validateApiSpec o) (validateResponses o)
    (validateRequests o) (validateSecurity o) (ignorePaths o)
    (ignoreUndocumented o) (securityHandlers o) (coerceTypes o)
    (useRequestUrl o) (unknownFormats o) (serDes o) (formats o)
    (ajvFormats o) (fileUploader o) m (refParser o)
    (operationHandlers o) (validateFormats o).

(** Collaborators whose resolver throws for the route [/v1/boom] and
    that let everything else through. *)
Definition resolverFails : Collaborators :=
  {| preProcess := preProcess passThrough;
     newOpenApiContext := newOpenApiContext passThrough;
     build := build passThrough;
     runMw := runMw passThrough;
     resolve := fun _ _ route _ =>
       if String.eqb (expressRoute route) "/v1/boom"
       then inl (Js.Obj (PlainError "no handler"))
       else inr 7%nat;
     dispatch := dispatch passThrough |}.

Definition boomContext : OpenApiContext :=
  mkContext petsDoc
    [ mkRoute "/v1" "/v1/pets/:id" "/pets/{id}" "GET" ["id"];
      mkRoute "/v1" "/v1/boom" "/boom" "POST" [];
      mkRoute "/v1" "/v1/pets" "/pets" "GET" [] ] 1.

Definition loadedBoom : MiddlewareContext :=
  mkMwContext (Some boomContext) None (Js.P Js.Null).

(** Options with security validation switched off, and a document that
    declares a security scheme. *)
Definition securityOffOpts : Options :=
  mkOptions (Js.P (Js.Str "./api.yaml")) None None None (Some (IsBool false))
    None None None None None None None None None None None None
    OHUndefined None.

Definition securityOffValidator : OpenApiValidator :=
  Eval cbv in constructed securityOffOpts.

Definition securedDoc : Document :=
  mkDocument "3.0.3" ["/pets/{id}"]
    (Some (mkComponents (Some [("ApiKey"%string, mkScheme "apiKey")]) [])).

Definition securedSpec : Spec :=
  mkSpec securedDoc ["/v1"] (spec_routes petsSpec) 1.

Definition throughSecurity : list Action :=
  [Settle (Resolved securedSpec); Arrive (request 1)] ++ repeat (Run 0) 6.

(** Collaborators whose schema preprocessing throws. *)
Definition preprocessFails : Collaborators :=
  {| preProcess := fun _ _ => inl enoent;
     newOpenApiContext := newOpenApiContext passThrough;
     build := build passThrough;
     runMw := runMw passThrough;
     resolve := resolve passThrough;
     dispatch := dispatch passThrough |}.

Definition twoFormats : list Format :=
  [ mkFormat "id" None 21%nat; mkFormat "id" (Some TNumber) 22%nat ].

(** Collaborators whose request-validation factory throws. *)
Definition badSchema : Thrown := Js.Obj (PlainError "schema is invalid").

Definition factoryFails : Collaborators :=
  {| preProcess := preProcess passThrough;
     newOpenApiContext := newOpenApiContext passThrough;
     build := fun m _ => match m with
                         | RequestOf _ => Some badSchema
                         | _ => None
                         end;
     runMw := runMw passThrough;
     resolve := resolve passThrough;
     dispatch := dispatch passThrough |}.

(** A request of the application [a]. *)
Definition requestOn (a n : nat) : Request := mkRequest n a "/v1" None.

(** The spec loads, and two requests of two applications are taken
    through the whole chain of [plainValidator], one after the other. *)
Definition twoRequests : list Action :=
  [Settle (Resolved petsSpec); Arrive (requestOn 5 1)] ++ repeat (Run 0) 11
  ++ [Arrive (requestOn 6 2)] ++ repeat (Run 0) 11.

End Observe.

(* ================================================================== *)
(** ** Properties of the error classes *)
(* ================================================================== *)

Module TypesFacts.
Import Types Samples.
Local Open Scope Z_scope.

Lemma status_of_subclass (e : SubArg) :
  s_overrideStatus e = None ->
  status (newBadRequest e) = 400 /\ status (newUnauthorized e) = 401 /\
  status (newForbidden e) = 403 /\ status (newNotFound e) = 404 /\
  status (newMethodNotAllowed e) = 405 /\ status (newNotAcceptable e) = 406 /\
  status (newRequestEntityTooLarge e) = 413 /\
  status (newUnsupportedMediaType e) = 415 /\
  status (newInternalServerError e) = 500.
Proof.
  intros H. cbn. rewrite H. cbn. repeat split.
Qed.

Lemma create_unfold (err : CreateArg) (s : Z) :
  c_status err = s ->
  create err =
    if s =? 400 then newBadRequest (pass err)
    else if s =? 401 then newUnauthorized (pass err)
    else if s =? 403 then newForbidden (pass err)
    else if s =? 404 then newNotFound (pass err)
    else if s =? 405 then newMethodNotAllowed (pass err)
    else if s =? 406 then newNotAcceptable (pass err)
    else if s =? 413 then newRequestEntityTooLarge (pass err)
    else if s =? 415 then newUnsupportedMediaType (pass err)
    else newInternalServerError (pass err).
Proof. intros <-. reflexivity. Qed.

Lemma num_or_cases (a : option Z) (d : Z) :
  (a = None \/ a = Some 0 -> Js.num_or a d = d) /\
  (forall s, a = Some s -> s <> 0 -> Js.num_or a d = s).
Proof.
  unfold Js.num_or. split.
  - intros [-> | ->]; reflexivity.
  - intros s -> Hs. apply Z.eqb_neq in Hs. now rewrite Hs.
Qed.

(** C1, as stated, fails: an input with status 404 that carries
    [overrideStatus: 418] gives a [NotFound] whose status is 418, not the
    input status. *)
Lemma create_status_can_differ :
  In (c_status (sampleOverride 404 418), ClsNotFound) known /\
  cls (create (sampleOverride 404 418)) = ClsNotFound /\
  status (create (sampleOverride 404 418)) = 418 /\
  status (create (sampleOverride 404 418)) <> c_status (sampleOverride 404 418).
Proof.
  split; [cbn; auto 12 |]. split; [reflexivity |]. split; [reflexivity |].
  cbn. discriminate.
Qed.

(** C1, amended.  For an input whose status is one of 400, 401, 403,
    404, 405, 406, 413, 415, [HttpError.create] returns an object of the
    class listed for that status in [known], and for status 500 an
    [InternalServerError].  Its [status] is the input status when the
    input carries no [overrideStatus], or [overrideStatus: 0], and is
    the [overrideStatus] otherwise. *)
Theorem create_known_status (err : CreateArg) (c : ErrorClass) :
  In (c_status err, c) known \/
  (c_status err = 500 /\ c = ClsInternalServerError) ->
  cls (create err) = c /\
  (c_overrideStatus err = None \/ c_overrideStatus err = Some 0 ->
     status (create err) = c_status err) /\
  (forall s, c_overrideStatus err = Some s -> s <> 0 ->
     status (create err) = s).
Proof.
  intros Hin.
  assert (H : cls (create err) = c /\
              status (create err)
              = Js.num_or (c_overrideStatus err) (c_status err)).
  { destruct Hin as [Hin | [Hs ->]].
    - unfold known in Hin. cbn in Hin.
      repeat (destruct Hin as [Heq | Hin];
              [ injection Heq as Hs Hc; subst c;
                rewrite (create_unfold err _ (eq_sym Hs)); rewrite <- Hs;
                cbn; split; reflexivity | ]).
      contradiction.
    - rewrite (create_unfold err _ Hs), Hs. cbn. split; reflexivity. }
  destruct H as [Hc Hst]. rewrite Hst.
  split; [exact Hc |]. apply num_or_cases.
Qed.

Lemma create_known_status_witness :
  (cls (create (sampleCreate 404)) = ClsNotFound /\
   status (create (sampleCreate 404)) = 404) /\
  (cls (create (sampleCreate 500)) = ClsInternalServerError /\
   status (create (sampleCreate 500)) = 500) /\
  status (create (sampleOverride 405 418)) = 418.
Proof.
  split; [| split].
  - destruct (create_known_status (sampleCreate 404) ClsNotFound)
      as (Hc & Hs & _); [left; cbn; auto 12 |].
    split; [exact Hc | apply Hs; left; reflexivity].
  - destruct (create_known_status (sampleCreate 500) ClsInternalServerError)
      as (Hc & Hs & _); [right; split; reflexivity |].
    split; [exact Hc | apply Hs; left; reflexivity].
  - destruct (create_known_status (sampleOverride 405 418) ClsMethodNotAllowed)
      as (_ & _ & Hs); [left; cbn; auto 12 |].
    apply Hs; [reflexivity | discriminate].
Defined.

(** C9, as stated, fails: an input with status 402 that carries
    [overrideStatus: 418] gives an [InternalServerError] whose status is
    418, not 500. *)
Lemma create_other_status_can_differ :
  ~ In (c_status (sampleOverride 402 418)) (map fst known) /\
  cls (create (sampleOverride 402 418)) = ClsInternalServerError /\
  status (create (sampleOverride 402 418)) = 418 /\
  status (create (sampleOverride 402 418)) <> 500.
Proof.
  split; [cbn; lia |]. split; [reflexivity |]. split; [reflexivity |].
  cbn. discriminate.
Qed.

(** C9, amended.  For an input whose status is none of 400, 401, 403,
    404, 405, 406, 413, 415, [HttpError.create] returns an
    [InternalServerError]; the input status is discarded, and the
    [status] of the result is 500 when the input carries no
    [overrideStatus], or [overrideStatus: 0], and is the
    [overrideStatus] otherwise. *)
Theorem create_other_status (err : CreateArg) :
  ~ In (c_status err) (map fst known) ->
  cls (create err) = ClsInternalServerError /\
  (c_overrideStatus err = None \/ c_overrideStatus err = Some 0 ->
     status (create err) = 500) /\
  (forall s, c_overrideStatus err = Some s -> s <> 0 ->
     status (create err) = s).
Proof.
  intros Hnot. cbn in Hnot.
  assert (H : forall k, In k (map fst known) -> (c_status err =? k) = false).
  { intros k Hk. apply Z.eqb_neq. intros Heq. apply Hnot. cbn in Hk |- *.
    rewrite Heq. exact Hk. }
  unfold create.
  rewrite !H by (cbn; tauto).
  cbn. split; [reflexivity |]. apply num_or_cases.
Qed.

Lemma create_other_status_witness :
  (cls (create (sampleCreate 402)) = ClsInternalServerError /\
   status (create (sampleCreate 402)) = 500) /\
  (cls (create (sampleCreate 418)) = ClsInternalServerError /\
   status (create (sampleCreate 418)) = 500) /\
  status (create (sampleOverride 402 451)) = 451.
Proof.
  split; [| split].
  - destruct (create_other_status (sampleCreate 402)) as (Hc & Hs & _);
      [cbn; lia |].
    split; [exact Hc | apply Hs; left; reflexivity].
  - destruct (create_other_status (sampleCreate 418)) as (Hc & Hs & _);
      [cbn; lia |].
    split; [exact Hc | apply Hs; left; reflexivity].
  - destruct (create_other_status (sampleOverride 402 451)) as (_ & _ & Hs);
      [cbn; lia |].
    apply Hs; [reflexivity | discriminate].
Defined.

(** C3, as stated, fails: an argument that supplies the empty list of
    errors gives an [HttpError] whose [errors] is empty. *)
Lemma errors_can_be_empty : errors (newHttpError emptyErrors) = [].
Proof. reflexivity. Qed.

(** C3, amended.  When the constructor argument supplies no [errors]
    list, the [errors] field is the singleton list holding [{path,
    message}] of the argument; when it supplies a list, the field is that
    list, unchanged; so the field is non-empty unless the argument
    supplies the empty list. *)
Theorem errors_of_construct (c : ErrorClass) (err : HttpErrorArg) :
  (a_errors err = None ->
     errors (construct c err) = [mkItem (a_path err) (a_message err) None]) /\
  (forall l, a_errors err = Some l -> errors (construct c err) = l) /\
  (a_errors err <> Some [] -> errors (construct c err) <> []).
Proof.
  unfold construct; cbn.
  destruct (a_errors err) as [l |]; cbn.
  - repeat split; try discriminate.
    + intros l' H. injection H as ->. reflexivity.
    + intros H Hl. apply H. rewrite Hl. reflexivity.
  - repeat split; try discriminate.
Qed.

Lemma errors_of_construct_witness :
  errors (newHttpError noErrors) = [mkItem (Some "/pets") (Some "bad") None] /\
  errors (newHttpError oneError) = [sampleItem] /\
  errors (newHttpError noErrors) <> [].
Proof.
  split; [| split].
  - apply (proj1 (errors_of_construct ClsHttpError noErrors)). reflexivity.
  - apply (proj1 (proj2 (errors_of_construct ClsHttpError oneError))).
    reflexivity.
  - apply (proj2 (proj2 (errors_of_construct ClsHttpError noErrors))).
    cbn. discriminate.
Defined.

End TypesFacts.

(* ================================================================== *)
(** ** Properties of route resolution *)
(* ================================================================== *)

Module RouteIndexFacts.
Import Types RouteIndex Samples.
Local Open Scope Z_scope.

Lemma allowed_spec (index : list RouteEntry) (p m : string) :
  In m (allowed index p) <->
  exists e, In e index /\ matches e p = true /\ entry_method e = m.
Proof.
  unfold allowed. rewrite in_map_iff. split.
  - intros (e & Hm & Hin). apply filter_In in Hin as [Hin Hp].
    exists e. auto.
  - intros (e & Hin & Hp & Hm). exists e. split; [assumption |].
    apply filter_In. auto.
Qed.

Lemma find_none_when_other_method (index : list RouteEntry) (m p : string) :
  (forall e, In e index -> matches e p = true -> entry_method e <> m) ->
  find (fun e => matches e p && String.eqb (entry_method e) m) index = None.
Proof.
  intros Hother. induction index as [| e index IH]; cbn; [reflexivity |].
  destruct (matches e p) eqn:Hp; cbn.
  - destruct (String.eqb_spec (entry_method e) m) as [Heq | _].
    + exfalso. apply (Hother e); cbn; auto.
    + apply IH. intros e' Hin. apply Hother. now right.
  - apply IH. intros e' Hin. apply Hother. now right.
Qed.

(** C8.  When the path matches some route template, and every template
    it matches is listed under a method other than the request's,
    resolution gives a [MethodNotAllowed] error with status 405 whose
    [Allow] header lists the methods of the entries that match the path,
    and only those.  On the code: a [MethodNotAllowed] built without
    [overrideStatus] has status 405 and keeps the headers it is given. *)
Theorem method_mismatch_is_405 (ign : bool) (index : list RouteEntry)
  (m p : string) :
  (exists e, In e index /\ matches e p = true) ->
  (forall e, In e index -> matches e p = true -> entry_method e <> m) ->
  (exists err,
     resolve ign index m p = MethodMismatch err /\
     cls err = ClsMethodNotAllowed /\
     status err = 405 /\
     headers err = Some (mkHeaders (Some (String.concat ", " (allowed index p)))) /\
     forall x, In x (allowed index p) <->
               exists e, In e index /\ matches e p = true /\ entry_method e = x) /\
  (forall arg, s_overrideStatus arg = None ->
     cls (newMethodNotAllowed arg) = ClsMethodNotAllowed /\
     status (newMethodNotAllowed arg) = 405 /\
     headers (newMethodNotAllowed arg) = s_headers arg).
Proof.
  intros (e & Hin & Hp) Hother. split.
  - unfold resolve.
    rewrite (find_none_when_other_method index m p Hother).
    assert (Hne : allowed index p <> []).
    { intros Hnil.
      assert (Hm : In (entry_method e) (allowed index p))
        by (apply allowed_spec; exists e; auto).
      rewrite Hnil in Hm. contradiction. }
    pose proof (allowed_spec index p) as Hspec. revert Hspec.
    destruct (allowed index p) as [| a ms]; [congruence |]. intros Hspec.
    eexists. split; [reflexivity |].
    split; [reflexivity |]. split; [reflexivity |]. split; [reflexivity |].
    intros x. apply Hspec.
  - intros arg Hnone. cbn. rewrite Hnone. cbn. repeat split.
Qed.

Lemma method_mismatch_is_405_witness :
  (exists err,
     resolve false petsIndex "DELETE" "/pets" = MethodMismatch err /\
     cls err = ClsMethodNotAllowed /\
     status err = 405 /\
     headers err = Some (mkHeaders (Some "GET, POST"))) /\
  status (newMethodNotAllowed
            (mkSubArg (Some "/pets") None (Some (mkHeaders (Some "GET"))) None None))
  = 405.
Proof.
  assert (H1 : exists e, In e petsIndex /\ matches e "/pets" = true).
  { eexists. split; [left; reflexivity | reflexivity]. }
  assert (H2 : forall e, In e petsIndex -> matches e "/pets" = true ->
                         entry_method e <> "DELETE").
  { intros e [<- | [<- | [<- | []]]]; cbn; discriminate. }
  destruct (method_mismatch_is_405 false petsIndex "DELETE" "/pets" H1 H2)
    as [(err & Hr & Hc & Hs & Hh & _) Hcode].
  split.
  - exists err. repeat split; assumption.
  - apply (Hcode (mkSubArg (Some "/pets") None (Some (mkHeaders (Some "GET"))) None None)).
    reflexivity.
Defined.

End RouteIndexFacts.

(* ================================================================== *)
(** ** Properties of the constructor *)
(* ================================================================== *)

Module ValidatorFacts.
Import Opts Validator Samples.
Local Open Scope list_scope.

Section Normalize.

Variable defaultSerDes : list SerDes.

(** [normalizeOptions] touches [serDes], [formats], [ajvFormats] and
    [validateFormats] only. *)
Lemma normalizeOptions_fields (o n : Options) :
  normalizeOptions defaultSerDes o = inr n ->
  apiSpec n = apiSpec o /\
  validateResponses n = validateResponses o /\
  validateRequests n = validateRequests o /\
  validateSecurity n = validateSecurity o /\
  fileUploader n = fileUploader o /\
  operationHandlers n = operationHandlers o /\
  serDes n = Some (normalizeSerDes defaultSerDes (serDes o)).
Proof.
  unfold normalizeOptions. intros H.
  repeat match type of H with
         | context [match ?x with _ => _ end] => destruct x
         end;
    try discriminate; injection H as <-; cbn; repeat split.
Qed.

(** After the defaults are in, [normalizeOptions] does not throw. *)
Lemma normalizeOptions_total (o : Options) :
  exists n, normalizeOptions defaultSerDes (prepare o) = inr n.
Proof.
  unfold normalizeOptions, prepare, applyDefaults. cbn.
  destruct (formats o) as [[l | fo] |]; cbn;
    repeat match goal with
           | |- context [match ?x with _ => _ end] => destruct x; cbn
           end; eexists; reflexivity.
Qed.

(** The constructor fails only where [validateOptions] throws. *)
Lemma construct_succeeds (o : Options) (w : list string) :
  validateOptions (prepare o) = inr w ->
  exists v, construct defaultSerDes o = inr v.
Proof.
  intros H. unfold construct. rewrite H.
  destruct (normalizeOptions_total o) as [n ->]. eexists. reflexivity.
Qed.

Lemma findFormat_some (f : string) (l : list SerDes) (e : SerDes) :
  findFormat f l = Some e -> In e l /\ format e = f.
Proof.
  unfold findFormat. intros H. apply find_some in H as [Hin Heq].
  apply String.eqb_eq in Heq. auto.
Qed.

Lemma findFormat_none (f : string) (l : list SerDes) :
  findFormat f l = None -> forall u, In u l -> format u <> f.
Proof.
  unfold findFormat. intros H u Hin Heq.
  apply (find_none _ _ H) in Hin. cbn in Hin.
  rewrite Heq, String.eqb_refl in Hin. discriminate.
Qed.

(** The [forEach] loop only appends; what it appends are built-ins whose
    format no entry present before them carries; and afterwards every
    built-in it walked has an entry of its format. *)
Lemma forEach_appends (ds user : list SerDes) :
  exists added,
    normalizeSerDes ds (Some user) = user ++ added /\
    incl added ds /\
    (forall a u, In a added -> In u user -> format a <> format u) /\
    (forall d, In d ds ->
       exists e, In e (user ++ added) /\ format e = format d).
Proof.
  unfold normalizeSerDes. revert user.
  induction ds as [| d ds IH]; intros user; cbn.
  - exists []. rewrite app_nil_r. repeat split; try easy.
  - destruct (findFormat (format d) user) as [e |] eqn:Hfind.
    + destruct (IH user) as (added & Heq & Hincl & Hfresh & Hcov).
      exists added. repeat split; auto.
      * intros a Ha. right. auto.
      * intros d' [<- | Hd]; [| auto].
        apply findFormat_some in Hfind as [Hin Hf].
        exists e. split; [apply in_or_app; auto | assumption].
    + destruct (IH (user ++ [d])) as (added & Heq & Hincl & Hfresh & Hcov).
      exists (d :: added). rewrite Heq, <- app_assoc. cbn.
      repeat split.
      * intros a [<- | Ha]; [now left | right; auto].
      * intros a u [<- | Ha] Hu.
        -- intros Heq'. symmetry in Heq'.
           exact (findFormat_none _ _ Hfind u Hu Heq').
        -- apply Hfresh; [assumption | apply in_or_app; auto].
      * intros d' [<- | Hd].
        -- exists d. split; [| reflexivity].
           apply in_or_app. right. now left.
        -- destruct (Hcov d' Hd) as (e & Hin & Hf).
           exists e. split; [| assumption].
           rewrite <- app_assoc in Hin. exact Hin.
Qed.

End Normalize.

(** C4.  After normalisation the [serDes] list has an entry for the
    format of every built-in.  When the options supply no list, the
    built-in list is used as it is.  When they supply one, it is kept as
    the front of the result, what follows are built-ins, and no built-in
    carrying the format name of a user entry is among them. *)
Theorem serDes_normalized (defaultSerDes : list SerDes) (o n : Options) :
  normalizeOptions defaultSerDes o = inr n ->
  exists l,
    serDes n = Some l /\
    (forall d, In d defaultSerDes ->
       exists e, In e l /\ format e = format d) /\
    (serDes o = None -> l = defaultSerDes) /\
    (forall user, serDes o = Some user ->
       exists added,
         l = user ++ added /\
         incl added defaultSerDes /\
         forall a u, In a added -> In u user -> format a <> format u).
Proof.
  intros H. apply normalizeOptions_fields in H.
  destruct H as (_ & _ & _ & _ & _ & _ & Hs).
  exists (normalizeSerDes defaultSerDes (serDes o)).
  split; [assumption |].
  destruct (serDes o) as [user |].
  - destruct (forEach_appends defaultSerDes user)
      as (added & Heq & Hincl & Hfresh & Hcov).
    repeat split.
    + intros d Hd. rewrite Heq. auto.
    + discriminate.
    + intros user' Hu. injection Hu as <-. exists added. auto.
  - repeat split.
    + intros d Hd. exists d. auto.
    + discriminate.
Qed.

Lemma serDes_normalized_witness :
  (exists l,
     serDes normalizedMinimal = Some l /\
     (forall d, In d builtins -> exists e, In e l /\ format e = format d) /\
     (serDes (prepare minimal) = None -> l = builtins) /\
     (forall user, serDes (prepare minimal) = Some user ->
        exists added,
          l = user ++ added /\ incl added builtins /\
          forall a u, In a added -> In u user -> format a <> format u)) /\
  (exists l,
     serDes normalizedOverride = Some l /\
     (forall d, In d builtins -> exists e, In e l /\ format e = format d) /\
     (serDes (prepare overrideDate) = None -> l = builtins) /\
     (forall user, serDes (prepare overrideDate) = Some user ->
        exists added,
          l = user ++ added /\ incl added builtins /\
          forall a u, In a added -> In u user -> format a <> format u)) /\
  serDes normalizedMinimal = Some [dateSerDes; dateTimeSerDes] /\
  serDes normalizedOverride = Some [userMongo; userDate; dateTimeSerDes].
Proof.
  split; [| split; [| split; reflexivity]].
  - exact (serDes_normalized builtins (prepare minimal) normalizedMinimal
             eq_refl).
  - exact (serDes_normalized builtins (prepare overrideDate)
             normalizedOverride eq_refl).
Defined.

(** C6.  With [apiSpec] falsy ([undefined], [null], the empty string,
    [false], [0]) the constructor throws [apiSpec required.]; no
    validator object comes into being, so there is nothing to install
    middleware from. *)
Theorem apiSpec_required (defaultSerDes : list SerDes) (o : Options) :
  Js.truthy (apiSpec o) = false ->
  construct defaultSerDes o = inl (PlainError "apiSpec required.").
Proof.
  intros H. unfold construct, validateOptions.
  change (apiSpec (prepare o)) with (apiSpec o).
  rewrite H. reflexivity.
Qed.

Lemma apiSpec_required_witness :
  construct builtins (with_apiSpec (Js.P Js.Undefined) minimal)
    = inl (PlainError "apiSpec required.") /\
  construct builtins (with_apiSpec (Js.P Js.Null) minimal)
    = inl (PlainError "apiSpec required.") /\
  construct builtins (with_apiSpec (Js.P (Js.Str "")) minimal)
    = inl (PlainError "apiSpec required.").
Proof.
  split; [| split].
  - apply (apiSpec_required builtins (with_apiSpec (Js.P Js.Undefined) minimal)).
    reflexivity.
  - apply (apiSpec_required builtins (with_apiSpec (Js.P Js.Null) minimal)).
    reflexivity.
  - apply (apiSpec_required builtins (with_apiSpec (Js.P (Js.Str "")) minimal)).
    reflexivity.
Defined.

(** C7.  When the constructor receives [validateResponses: true] and
    returns a validator, the validator's options hold, in place of
    [true], the object with [removeAdditional: false], [coerceTypes:
    false] and [onError: null]. *)
Theorem validateResponses_true (defaultSerDes : list SerDes) (o : Options)
  (v : OpenApiValidator) :
  validateResponses o = Some (IsBool true) ->
  construct defaultSerDes o = inr v ->
  exists r,
    validateResponses (options v) = Some (IsObj r) /\
    res_onError r = Js.P Js.Null /\
    res_removeAdditional r = Some (RemoveBool false) /\
    res_coerceTypes r = Some (CoerceBool false).
Proof.
  intros Ht Hc. unfold construct in Hc.
  destruct (validateOptions (prepare o)); [discriminate |].
  destruct (normalizeOptions defaultSerDes (prepare o)) as [| n] eqn:Hn;
    [discriminate |].
  injection Hc as <-. cbn.
  apply normalizeOptions_fields in Hn.
  destruct Hn as (_ & Hr & _). rewrite Hr. cbn. rewrite Ht. cbn.
  exists defaultResponseOpts. repeat split.
Qed.

Lemma validateResponses_true_witness :
  exists v r,
    construct builtins (with_validateResponses (Some (IsBool true)) minimal)
      = inr v /\
    validateResponses (options v) = Some (IsObj r) /\
    res_onError r = Js.P Js.Null /\
    res_removeAdditional r = Some (RemoveBool false) /\
    res_coerceTypes r = Some (CoerceBool false).
Proof.
  eexists.
  destruct (validateResponses_true builtins
              (with_validateResponses (Some (IsBool true)) minimal)
              _ eq_refl eq_refl) as (r & H).
  exists r. split; [reflexivity | exact H].
Defined.

End ValidatorFacts.

(* ================================================================== *)
(** ** Properties of the middleware chain *)
(* ================================================================== *)

Module ChainFacts.
Import Opts Validator Chain ChainInvariants Samples.
Local Open Scope nat_scope.
Local Open Scope list_scope.

(** Split on whatever the goal or a hypothesis is matching on. *)
Ltac break_match :=
  match goal with
  | |- context [match ?x with _ => _ end] => destruct x eqn:?
  | H : context [match ?x with _ => _ end] |- _ => destruct x eqn:?
  end.

Ltac pair_inv :=
  repeat match goal with
         | H : (_, _) = (_, _) |- _ => injection H as ? ?; subst
         end.

Lemma pick_spec (i : nat) (l : list Task) (t : Task) (others : list Task) :
  pick i l = Some (t, others) ->
  In t l /\ incl others l /\ List.length l = S (List.length others).
Proof.
  revert i t others. induction l as [| x l IH]; intros i t others H.
  - destruct i; discriminate.
  - destruct i as [| i]; cbn in H.
    + injection H as <- <-. split; [now left |]. split; [| reflexivity].
      intros y Hy. now right.
    + destruct (pick i l) as [[y rest] |] eqn:Hp; [| discriminate].
      injection H as <- <-.
      destruct (IH _ _ _ Hp) as (Hin & Hincl & Hlen).
      split; [now right |]. split.
      * intros z [<- | Hz]; [now left | right; auto].
      * cbn. now rewrite Hlen.
Qed.

Lemma pick_Forall (P : Task -> Prop) (i : nat) (l : list Task) (t : Task)
  (others : list Task) :
  pick i l = Some (t, others) -> Forall P l -> P t /\ Forall P others.
Proof.
  intros Hp Hall. apply pick_spec in Hp as (Hin & Hincl & _).
  rewrite Forall_forall in Hall. split; [auto |].
  apply Forall_forall. intros x Hx. auto.
Qed.

Lemma count_app (p : Call -> bool) (a b : list Call) :
  count p (a ++ b) = count p a + count p b.
Proof. unfold count. now rewrite filter_app, length_app. Qed.

Lemma count_params (p : Call -> bool) (t : Target) (names : list string) :
  (forall x, p (CallParam t x) = false) ->
  count p (map (CallParam t) names) = 0.
Proof.
  intros H. unfold count. induction names as [| x names IH]; cbn; [easy |].
  now rewrite H.
Qed.

Section Installed.

Variable K : Collaborators.
Variable self : OpenApiValidator.

Local Abbreviation step := (Chain.step K self).
Local Abbreviation run := (Chain.run K self).
Local Abbreviation chain := (installMiddleware self).

Lemma run_app (st : State) (a b : list Action) :
  run st (a ++ b) = run (run st a) b.
Proof. apply fold_left_app. Qed.

(** A property of the initial state that every step keeps holds after
    every run. *)
Lemma run_invariant (P : State -> Prop) :
  (forall st a, P st -> P (step st a)) ->
  forall acts st, P st -> P (run st acts).
Proof.
  intros Hstep acts. induction acts as [| a acts IH]; intros st H; cbn.
  - exact H.
  - apply IH, Hstep, H.
Qed.

(** What [installOperationHandlers] leaves alone. *)
Lemma installOperationHandlers_frame (b : string) (c : option OpenApiContext)
  (st st' : State) (res : Thrown + Router) :
  installOperationHandlers K self b c st = (res, st') ->
  pContext st' = pContext st /\ inited st' = inited st /\
  scmw st' = scmw st /\ tasks st' = tasks st /\
  finished st' = finished st /\
  (metamw st' = metamw st /\ fumw st' = fumw st /\
   reqmw st' = reqmw st /\ resmw st' = resmw st) /\
  exists calls, log st' = log st ++ calls /\
                count isAppInstall calls = 0 /\
                count isSecurityCall calls = 0.
Proof.
  unfold installOperationHandlers. intros H.
  repeat break_match; pair_inv; cbn.
  all: repeat (split; [first [reflexivity | repeat split; reflexivity] |]).
  all: eexists; (split; [rewrite <- ?app_assoc; reflexivity |]).
  all: rewrite ?count_app, ?count_params by reflexivity; split; reflexivity.
Qed.

Ltac slots :=
  match goal with
  | Hok : slots_ok _ |- slots_ok _ =>
      let x := fresh "x" in
      let Hx := fresh "Hx" in
      intros x Hx; cbn in Hx;
      repeat match type of Hx with
             | _ \/ _ => destruct Hx as [Hx | Hx]
             end;
      first [ injection Hx as <-; solve [exact I | assumption | apply Hok; tauto]
            | apply Hok; tauto ]
  end.

Ltac kept :=
  match goal with
  | Hok : slots_ok _ |- _ =>
      first [ let s := fresh "s" in intros s; repeat split; reflexivity
            | intros ?; slots
            | let x := fresh "x" in
              let Hx := fresh "Hx" in
              intros x Hx; apply Hok; tauto ]
  end.

Ltac counts :=
  cbn [log add_log set_inited set_metamw set_scmw set_fumw set_reqmw
       set_resmw set_router bump_routers set_tasks add_finished
       inited scmw];
  rewrite ?count_app, ?count_params by reflexivity;
  repeat match goal with
         | H : inited _ = _ |- _ => rewrite H
         end;
  cbn [count filter isAppInstall isSecurityCall List.length Nat.b2n app];
  try lia.

Lemma pathParams_effect (mc : MiddlewareContext) (r : Request)
  (st st' : State) (res : MwResult) :
  pathParamsCallback mc r st = (res, st') -> slots_ok st -> effect mc st st'.
Proof.
  unfold pathParamsCallback, installPathParams, effect. intros H Hok.
  repeat break_match; pair_inv; try discriminate;
    (split; [reflexivity |]); (split; [reflexivity |]);
    (split; [reflexivity |]); (split; [slots |]); split; try intros _;
    try split; try reflexivity; counts.
Qed.

(** The three ways [x || make()] goes. *)
Lemma memo_cases (slot : option Mw) (fresh : Mw) (res : Thrown + Mw)
  (made : list Call) :
  memo K self slot fresh = (res, made) ->
  (exists m, slot = Some m /\ res = inr m /\ made = []) \/
  (slot = None /\ made = [CallNew fresh] /\
   ((exists e, build K fresh (options self) = Some e /\ res = inl e) \/
    (build K fresh (options self) = None /\ res = inr fresh))).
Proof.
  unfold memo. intros H. destruct slot as [m |].
  - pair_inv. left. eauto.
  - right. destruct (build K fresh (options self)) as [e |]; pair_inv; eauto 6.
Qed.

Lemma memo_no_install (slot : option Mw) (fresh : Mw) (res : Thrown + Mw)
  (made : list Call) :
  memo K self slot fresh = (res, made) -> count isAppInstall made = 0.
Proof.
  intros H.
  destruct (memo_cases _ _ _ _ H) as [(m & _ & _ & ->) | (_ & -> & _)];
    reflexivity.
Qed.

(** The shape shared by the callbacks that build a middleware once,
    keep it in a slot and run it, or forward what the factory threw. *)
Lemma kept_effect (mc : MiddlewareContext) (r : Request) (st : State)
  (slot : option Mw) (set : Mw -> State -> State) (fresh : Mw)
  (res : Thrown + Mw) (made : list Call) :
  memo K self slot fresh = (res, made) ->
  match fresh with SecurityOf _ _ => False | _ => True end ->
  (forall x, slot = Some x ->
             match x with SecurityOf _ _ => False | _ => True end) ->
  (forall m s, pContext (set m s) = pContext s /\ tasks (set m s) = tasks s /\
               finished (set m s) = finished s /\
               inited (set m s) = inited s /\
               scmw (set m s) = scmw s /\ log (set m s) = log s) ->
  (forall m, match m with SecurityOf _ _ => False | _ => True end ->
             slots_ok (set m st)) ->
  slots_ok st ->
  effect mc st (match res with
                | inl _ => add_log made st
                | inr m => add_log (made ++ [CallMw m r]) (set m st)
                end).
Proof.
  intros Hm Hf Hs Hset Hslots Hok.
  assert (Hmade : count isAppInstall made = 0 /\ count isSecurityCall made = 0).
  { destruct (memo_cases _ _ _ _ Hm) as [(m & _ & _ & ->) | (_ & -> & _)];
      [split; reflexivity |].
    destruct fresh; try contradiction; split; reflexivity. }
  destruct Hmade as [Hc1 Hc2].
  destruct res as [e | m].
  - unfold effect, add_log. cbn [pContext tasks finished inited scmw log].
    rewrite !count_app, Hc1, Hc2.
    repeat split; try reflexivity; try lia.
    intros x Hx. apply Hok. exact Hx.
  - assert (Hk : match m with SecurityOf _ _ => False | _ => True end).
    { destruct (memo_cases _ _ _ _ Hm)
        as [(m' & Hsl & Hr & _) | (_ & _ & [(e & _ & Hr) | (_ & Hr)])];
        try discriminate; injection Hr as ->; [now apply Hs | exact Hf]. }
    destruct (Hset m st) as (Hp & Ht & Hfin & Hi & Hsc & Hl).
    unfold effect, add_log. cbn [pContext tasks finished inited scmw log].
    rewrite Hp, Ht, Hfin, Hi, Hsc, Hl, !count_app, Hc1, Hc2.
    assert (Hr1 : count isAppInstall [CallMw m r] = 0) by reflexivity.
    assert (Hr2 : count isSecurityCall [CallMw m r] = 0)
      by (destruct m; try contradiction; reflexivity).
    rewrite Hr1, Hr2.
    repeat split; try reflexivity; try lia.
    intros x Hx. apply (Hslots m Hk x). exact Hx.
Qed.

Ltac side Hok :=
  first [ exact I
        | exact Hok
        | solve [let x := fresh "x" in
                 let Hx := fresh "Hx" in
                 intros x Hx; apply Hok; tauto]
        | solve [intros ? ?; repeat split; reflexivity]
        | solve [intros ? ?; slots] ].

Lemma metadata_effect (mc : MiddlewareContext) (r : Request)
  (st st' : State) (res : MwResult) :
  metadataCallback K self mc r st = (res, st') -> slots_ok st -> effect mc st st'.
Proof.
  unfold metadataCallback. intros H Hok.
  destruct (memo K self (metamw st) _) as [res0 made] eqn:Hm.
  pose proof (kept_effect mc r st _ set_metamw _ _ _ Hm) as HE.
  destruct res0; pair_inv; apply HE; side Hok.
Qed.

Lemma multipart_effect (mc : MiddlewareContext) (r : Request)
  (st st' : State) (res : MwResult) :
  multipartCallback K self mc r st = (res, st') -> slots_ok st -> effect mc st st'.
Proof.
  unfold multipartCallback. intros H Hok.
  destruct (context mc) as [c |].
  - destruct (memo K self (fumw st) _) as [res0 made] eqn:Hm.
    pose proof (kept_effect mc r st _ set_fumw _ _ _ Hm) as HE.
    destruct res0; pair_inv; apply HE; side Hok.
  - pair_inv. unfold effect. repeat split; auto.
Qed.

Lemma request_effect (mc : MiddlewareContext) (r : Request)
  (st st' : State) (res : MwResult) :
  requestCallback K self mc r st = (res, st') -> slots_ok st -> effect mc st st'.
Proof.
  unfold requestCallback. intros H Hok.
  destruct (context mc) as [c |].
  - destruct (memo K self (reqmw st) _) as [res0 made] eqn:Hm.
    pose proof (kept_effect mc r st _ set_reqmw _ _ _ Hm) as HE.
    destruct res0; pair_inv; apply HE; side Hok.
  - pair_inv. unfold effect. repeat split; auto.
Qed.

Lemma response_effect (mc : MiddlewareContext) (r : Request)
  (st st' : State) (res : MwResult) :
  responseCallback K self mc r st = (res, st') -> slots_ok st -> effect mc st st'.
Proof.
  unfold responseCallback. intros H Hok.
  destruct (context mc) as [c |].
  - destruct (memo K self (resmw st) _) as [res0 made] eqn:Hm.
    pose proof (kept_effect mc r st _ set_resmw _ _ _ Hm) as HE.
    destruct res0; pair_inv; apply HE; side Hok.
  - pair_inv. unfold effect. repeat split; auto.
Qed.

Lemma security_effect (mc : MiddlewareContext) (r : Request)
  (st st' : State) (res : MwResult) :
  securityCallback K self mc r st = (res, st') -> slots_ok st -> effect mc st st'.
Proof.
  unfold securityCallback, effect, no_schemes. intros H Hok.
  destruct (context mc) as [c |]; [| pair_inv; repeat split; auto].
  destruct (on (validateSecurity (options self)));
    [| pair_inv; repeat split; auto].
  destruct (schemesOf (apiDoc c)) as [ss |];
    [| pair_inv; repeat split; auto].
  destruct (memo K self (scmw st) _) as [res0 made] eqn:Hm.
  pose proof (memo_no_install _ _ _ _ Hm) as Hc.
  destruct res0 as [e | m]; pair_inv; unfold add_log, set_scmw;
    cbn [pContext tasks finished inited scmw log];
    rewrite ?count_app, Hc;
    repeat split; try reflexivity; try discriminate;
    first [slots | cbn; lia | (intros x Hx; apply Hok; exact Hx)].
Qed.

Lemma operationHandlers_effect (mc : MiddlewareContext) (r : Request)
  (st st' : State) (res : MwResult) :
  operationHandlersCallback K self mc r st = (res, st') ->
  slots_ok st -> effect mc st st'.
Proof.
  unfold operationHandlersCallback. intros H Hok.
  destruct (installOperationHandlers K self (baseUrl r) (context mc) st)
    as [[e | rt] st1] eqn:Hi;
    apply installOperationHandlers_frame in Hi
      as (Hp & Hin & Hsc & Ht & Hf & (Hs1 & Hs2 & Hs3 & Hs4) & calls & Hl & Hc1 & Hc2);
    pair_inv; unfold effect, add_log, set_router;
    cbn [pContext tasks finished inited scmw log];
    rewrite ?Hp, ?Hin, ?Hsc, ?Ht, ?Hf, ?Hl;
    rewrite ?count_app, ?Hc1, ?Hc2;
    (split; [reflexivity |]); (split; [reflexivity |]);
    (split; [reflexivity |]); split;
    try (intros x Hx; cbn in Hx; rewrite ?Hs1, ?Hs2, ?Hs3, ?Hs4 in Hx;
         apply Hok; exact Hx);
    cbn; split; try intros _; try split; try reflexivity; lia.
Qed.

Lemma callback_effect (mw : Stage) (mc : MiddlewareContext) (r : Request)
  (st st' : State) (res : MwResult) :
  callback K self mw mc r st = (res, st') -> slots_ok st -> effect mc st st'.
Proof.
  destruct mw; cbn.
  - apply pathParams_effect.
  - apply metadata_effect.
  - apply security_effect.
  - apply multipart_effect.
  - apply request_effect.
  - apply response_effect.
  - apply operationHandlers_effect.
Qed.

Lemma same_core_Inv (st st' : State) :
  same_core st st' -> Inv K self st -> Inv K self st'.
Proof.
  intros (Hp & Hi & Hs & Hc1 & Hc2 & Hm & Hf & Hq & Hr) (Hok & Hcnt & Hqu & Hb).
  unfold Inv, quiet, built, slots_ok in *.
  rewrite Hp, Hi, Hs, Hc1, Hc2, Hm, Hf, Hq, Hr. auto.
Qed.

Lemma same_core_trans (a b c : State) :
  same_core a b -> same_core b c -> same_core a c.
Proof.
  unfold same_core. intros H1 H2.
  destruct H1 as (? & ? & ? & ? & ? & ? & ? & ? & ?).
  destruct H2 as (? & ? & ? & ? & ? & ? & ? & ? & ?).
  repeat split; congruence.
Qed.

Lemma continue_core (res : MwResult) (r : Request) (rest : list Stage)
  (st : State) : same_core st (continue res r rest st).
Proof. destruct res; unfold same_core; cbn; repeat split. Qed.

Lemma dispatch_core (id : nat) (r : Request) (t : list Task) (st : State) :
  same_core st (add_log [CallDispatch id r] (set_tasks t st)).
Proof.
  unfold same_core. cbn [pContext inited scmw log metamw fumw reqmw resmw
                          add_log set_tasks].
  rewrite !count_app. cbn. repeat split; lia.
Qed.

Lemma effect_Inv (mc : MiddlewareContext) (st st' : State) :
  pContext st = Some mc -> effect mc st st' -> Inv K self st -> Inv K self st'.
Proof.
  intros Hmc (Hp & _ & _ & Hok' & Hcnt' & Hsec) (Hok & Hcnt & Hqu & Hb).
  unfold Inv, quiet, built in *. rewrite Hp, Hmc in *.
  repeat split; auto.
  - lia.
  - destruct (Hsec H) as [-> ?]. now apply Hqu.
  - destruct (Hsec H) as [_ ->]. now apply Hqu.
Qed.

Lemma init_Inv : Inv K self init.
Proof.
  unfold Inv, quiet, built, slots_ok. cbn.
  repeat split; try reflexivity.
  - intros x [H | [H | [H | H]]]; discriminate.
  - intros mc H. discriminate.
Qed.

Ltac core HI :=
  match goal with
  | |- Inv _ _ ?st' =>
      match type of HI with
      | Inv _ _ ?st =>
          apply (same_core_Inv st st');
          [solve [unfold same_core; cbn; repeat split] | exact HI]
      end
  end.

Lemma step_Inv (st : State) (a : Action) : Inv K self st -> Inv K self (step st a).
Proof.
  intros HI. destruct a as [r | o | i]; cbn.
  - core HI.
  - destruct (pContext st) as [mc |] eqn:Hp; [exact HI |].
    destruct HI as (Hok & Hcnt & Hqu & Hb).
    unfold Inv, quiet, built in *. rewrite Hp in Hqu. cbn.
    repeat split; auto.
    + now apply Hqu.
    + now apply Hqu.
    + intros mc H. injection H as <-. eexists. reflexivity.
  - destruct (pick i (tasks st)) as [[[r c | r mw rest] others] |] eqn:Hpick;
      [| | exact HI].
    + destruct c as [| mw rest]; [core HI |].
      destruct mw; try (core HI).
      destruct (router st) as [rt |]; [| core HI].
      eapply same_core_Inv; [| exact HI].
      eapply same_core_trans; [apply dispatch_core | apply continue_core].
    + destruct (pContext st) as [mc |] eqn:Hp; [| exact HI].
      destruct (callback K self mw mc r (set_tasks others st))
        as [res st'] eqn:Hcb.
      eapply same_core_Inv; [apply continue_core |].
      assert (HI' : Inv K self (set_tasks others st)) by (core HI).
      eapply effect_Inv; [| eapply callback_effect; [exact Hcb |] | exact HI'].
      * exact Hp.
      * apply HI'.
Qed.

Lemma run_Inv (acts : list Action) : Inv K self (run init acts).
Proof. apply run_invariant; [apply step_Inv | apply init_Inv]. Qed.

(** *** A failed load *)

Lemma arrivals_app (a b : list Action) :
  arrivals (a ++ b) = arrivals a + arrivals b.
Proof. unfold arrivals. now rewrite filter_app, length_app. Qed.

Lemma arrivals_cons (a : Action) (l : list Action) :
  arrivals (a :: l) = arrival a + arrivals l.
Proof. unfold arrivals. destruct a; reflexivity. Qed.

(** A step at the first middleware, spelled out. *)
Lemma step_at_first (st : State) (i : nat) (t : Task) (others : list Task) :
  pick i (tasks st) = Some (t, others) -> atFirst chain t ->
  step st (Run i) =
    match t with
    | Enter r _ => set_tasks (others ++ [Then r PathParamsMw (tl chain)]) st
    | Then r _ rest =>
        match pContext st with
        | None => st
        | Some mc =>
            let '(res, st') := pathParamsCallback mc r (set_tasks others st) in
            continue res r rest st'
        end
    end.
Proof.
  intros Hp Hat. cbn [Chain.step]. rewrite Hp.
  destruct t as [r c | r mw rest]; cbn [atFirst] in Hat; subst; reflexivity.
Qed.

Lemma step_Pending (st : State) (a : Action) :
  isSettle a = false -> Pending self st ->
  Pending self (step st a) /\ total (step st a) = total st + arrival a.
Proof.
  intros Ha (Hp & Ht & Hf & Hl). destruct a as [r | o | i]; try discriminate.
  - unfold Pending, total. cbn. rewrite length_app. cbn.
    repeat split; auto; [| lia].
    apply Forall_app. split; [assumption |]. constructor; [reflexivity | constructor].
  - destruct (pick i (tasks st)) as [[t others] |] eqn:Hpick.
    + destruct (pick_Forall _ _ _ _ _ Hpick Ht) as [Hat Hothers].
      apply pick_spec in Hpick as Hlen. destruct Hlen as (_ & _ & Hlen).
      rewrite (step_at_first st i t others Hpick Hat).
      destruct t as [r c | r mw rest].
      * unfold Pending, total. cbn. rewrite length_app, Hlen. cbn.
        repeat split; auto; [| lia].
        apply Forall_app. split; [assumption |].
        constructor; [reflexivity | constructor].
      * rewrite Hp. unfold Pending, total. cbn. repeat split; auto.
    + cbn. rewrite Hpick. unfold Pending, total. cbn. repeat split; auto.
Qed.

Lemma settle_Failed (e : Thrown) (st : State) :
  Pending self st ->
  Failed self e (step st (Settle (Rejected e))) /\
  total (step st (Settle (Rejected e))) = total st.
Proof.
  intros (Hp & Ht & Hf & Hl). cbn. rewrite Hp.
  unfold Failed, total. cbn. rewrite Hf. repeat split; auto.
Qed.

Lemma step_Failed (e : Thrown) (st : State) (a : Action) :
  Js.truthy e = true -> Failed self e st ->
  Failed self e (step st a) /\ total (step st a) = total st + arrival a.
Proof.
  intros He (Hp & Ht & Hf & Hl). destruct a as [r | o | i].
  - unfold Failed, total. cbn. rewrite length_app. cbn.
    repeat split; auto; [| lia].
    apply Forall_app. split; [assumption |].
    constructor; [reflexivity | constructor].
  - cbn. rewrite Hp. unfold Failed, total. cbn. repeat split; auto.
  - destruct (pick i (tasks st)) as [[t others] |] eqn:Hpick.
    + destruct (pick_Forall _ _ _ _ _ Hpick Ht) as [Hat Hothers].
      apply pick_spec in Hpick as Hlen. destruct Hlen as (_ & _ & Hlen).
      rewrite (step_at_first st i t others Hpick Hat).
      destruct t as [r c | r mw rest].
      * unfold Failed, total. cbn. rewrite length_app, Hlen. cbn.
        repeat split; auto; [| lia].
        apply Forall_app. split; [assumption |].
        constructor; [reflexivity | constructor].
      * rewrite Hp. unfold pathParamsCallback. cbn. rewrite He. cbn.
        unfold Failed, total. cbn. rewrite length_app, Hlen. cbn.
        repeat split; auto; [| lia].
        apply Forall_app. split; [assumption |].
        constructor; [reflexivity | constructor].
    + cbn. rewrite Hpick. unfold Failed, total. cbn. repeat split; auto.
Qed.

Lemma run_Pending (acts : list Action) (st : State) :
  forallb (fun a => negb (isSettle a)) acts = true -> Pending self st ->
  Pending self (run st acts) /\ total (run st acts) = total st + arrivals acts.
Proof.
  revert st. induction acts as [| a acts IH]; intros st Hno HP.
  - split; [assumption | unfold arrivals; cbn; lia].
  - cbn in Hno. apply andb_prop in Hno as [Ha Hno].
    apply negb_true_iff in Ha.
    destruct (step_Pending st a Ha HP) as [HP' Ht'].
    destruct (IH _ Hno HP') as [HP'' Ht''].
    change (run st (a :: acts)) with (run (step st a) acts).
    split; [assumption |].
    rewrite Ht'', Ht', arrivals_cons. lia.
Qed.

Lemma run_Failed (e : Thrown) (acts : list Action) (st : State) :
  Js.truthy e = true -> Failed self e st ->
  Failed self e (run st acts) /\ total (run st acts) = total st + arrivals acts.
Proof.
  intros He. revert st. induction acts as [| a acts IH]; intros st HF.
  - split; [assumption | unfold arrivals; cbn; lia].
  - destruct (step_Failed e st a He HF) as [HF' Ht'].
    destruct (IH _ HF') as [HF'' Ht''].
    change (run st (a :: acts)) with (run (step st a) acts).
    split; [assumption |].
    rewrite Ht'', Ht', arrivals_cons. lia.
Qed.

Lemma weights_bound (l : list Task) : weights l <= 2 * List.length l.
Proof.
  unfold weights. induction l as [| t l IH]; [cbn; lia |].
  change (list_sum (map weight (t :: l)))
    with (weight t + list_sum (map weight l)).
  change (List.length (t :: l)) with (S (List.length l)).
  destruct t; cbn [weight]; lia.
Qed.

Lemma weights_app (a b : list Task) : weights (a ++ b) = weights a + weights b.
Proof. unfold weights. now rewrite map_app, list_sum_app. Qed.

(** After a failed load, running the head of the task list often enough
    empties it. *)
Lemma drain_Failed (e : Thrown) (n : nat) (st : State) :
  Js.truthy e = true -> Failed self e st -> weights (tasks st) <= n ->
  tasks (run st (repeat (Run 0) n)) = [].
Proof.
  intros He. revert st. induction n as [| n IH]; intros st HF Hw.
  - cbn. destruct (tasks st) as [| t l]; [reflexivity |].
    unfold weights in Hw. cbn in Hw. destruct t; cbn in Hw; lia.
  - change (run st (repeat (Run 0) (S n)))
      with (run (step st (Run 0)) (repeat (Run 0) n)).
    destruct (step_Failed e st (Run 0) He HF) as [HF' _].
    apply IH; [assumption |].
    destruct HF as (Hp & Ht & Hf & Hl).
    destruct (tasks st) as [| t l] eqn:Htasks.
    + cbn. rewrite Htasks. cbn. rewrite Htasks. cbn. lia.
    + assert (Hpick : pick 0 (tasks st) = Some (t, l))
        by (rewrite Htasks; reflexivity).
      inversion Ht as [| ? ? Hat Hrest]; subst.
      rewrite (step_at_first st 0 t l Hpick Hat).
      change (weights (t :: l)) with (weight t + weights l) in Hw.
      destruct t as [r c | r mw rest]; cbn [weight] in Hw.
      * cbn [tasks set_tasks]. rewrite weights_app.
        change (weights [Then r PathParamsMw (tl chain)]) with 1. lia.
      * rewrite Hp. unfold pathParamsCallback.
        cbn [error failed]. rewrite He.
        cbn [continue add_finished set_tasks tasks]. lia.
Qed.

Lemma arrivals_repeat_run (n : nat) : arrivals (repeat (Run 0) n) = 0.
Proof. induction n as [| n IH]; [reflexivity | exact IH]. Qed.

Lemma Forall_forwarded (e : Thrown) (l : list (Request * Outcome)) :
  Forall (fun p => snd p = Forwarded e) l ->
  forall r o, In (r, o) l -> o = Forwarded e.
Proof.
  intros H r o Hin. rewrite Forall_forall in H. exact (H (r, o) Hin).
Qed.

(** C2.  Let the spec promise reject with a truthy [e] (every error
    object is) after the actions [acts1], during which it was pending,
    and let [acts2] be whatever follows.  Then [pContext] holds the
    failure with [e] and keeps holding it; every request that has left
    the chain was forwarded [e]; every other request is still at the
    first middleware; and once the waiting callbacks have run, all
    requests that ever arrived, before or after the rejection, have been
    forwarded [e], without the chain having made a single call. *)
Theorem failed_load_fails_every_request (e : Thrown)
  (acts1 acts2 : list Action) :
  Js.truthy e = true ->
  forallb (fun a => negb (isSettle a)) acts1 = true ->
  let st := run init (acts1 ++ Settle (Rejected e) :: acts2) in
  let done := run st (repeat (Run 0) (2 * List.length (tasks st))) in
  pContext st = Some (failed e) /\
  pContext done = Some (failed e) /\
  (forall r o, In (r, o) (finished st) -> o = Forwarded e) /\
  Forall (atFirst chain) (tasks st) /\
  tasks done = [] /\
  List.length (finished done) = arrivals (acts1 ++ acts2) /\
  (forall r o, In (r, o) (finished done) -> o = Forwarded e) /\
  log done = [].
Proof.
  intros He Hno st done.
  assert (HP0 : Pending self init) by (unfold Pending; cbn; auto).
  destruct (run_Pending acts1 init Hno HP0) as [HP1 Ht1].
  destruct (settle_Failed e _ HP1) as [HF1 Ht1'].
  destruct (run_Failed e acts2 _ He HF1) as [HF2 Ht2].
  assert (Hst : st = run (step (run init acts1) (Settle (Rejected e))) acts2).
  { unfold st. rewrite run_app. reflexivity. }
  rewrite <- Hst in HF2, Ht2.
  destruct (run_Failed e (repeat (Run 0) (2 * List.length (tasks st))) st He HF2)
    as [HF3 Ht3].
  fold done in HF3, Ht3.
  pose proof (drain_Failed e _ st He HF2 (weights_bound (tasks st))) as Hdrain.
  fold done in Hdrain.
  destruct HF2 as (Hp2 & Hat2 & Hfin2 & Hl2).
  destruct HF3 as (Hp3 & Hat3 & Hfin3 & Hl3).
  split; [exact Hp2 |]. split; [exact Hp3 |].
  split; [eapply Forall_forwarded; eassumption |].
  split; [exact Hat2 |]. split; [exact Hdrain |].
  split; [| split; [eapply Forall_forwarded; eassumption | exact Hl3]].
  rewrite arrivals_repeat_run in Ht3. rewrite arrivals_app.
  change (total init) with 0 in Ht1.
  unfold total in Ht1, Ht1', Ht2, Ht3. rewrite Hdrain in Ht3.
  cbn [List.length] in Ht3. lia.
Qed.

Lemma built_context (mc : MiddlewareContext) (c : OpenApiContext) :
  (exists o, mc = buildContext K self o) -> context mc = Some c ->
  error mc = Js.P Js.Null.
Proof.
  intros [o ->]. unfold buildContext, failed.
  repeat break_match; cbn; intros H; try discriminate; reflexivity.
Qed.

(** C5, amended.  In every run, [installPathParams] is called with a
    loaded context on an application at most once, and it has been
    called exactly when the guard [inited] is set.  The callback of
    [pathParamsMiddleware] that finds a loaded context leaves the guard
    set and hands the request on; it makes the call, followed by one
    [app.param] per name, if the guard was not set, and no call at all if
    it was. *)
Theorem pathParams_installed_once (acts : list Action) :
  let st := run init acts in
  count isAppInstall (log st) <= 1 /\
  (inited st = true <-> count isAppInstall (log st) = 1) /\
  forall i r rest others mc c,
    pick i (tasks st) = Some (Then r PathParamsMw rest, others) ->
    pContext st = Some mc -> context mc = Some c ->
    let st' := step st (Run i) in
    inited st' = true /\
    tasks st' = others ++ [Enter r rest] /\
    if inited st then log st' = log st
    else exists names,
        installPathParams (Some c) = inr names /\
        log st' = log st
                  ++ CallInstallPathParams (OnApp (app r)) (Some c)
                  :: map (CallParam (OnApp (app r))) names.
Proof.
  intros st. destruct (run_Inv acts) as (_ & Hcnt & _ & Hb). fold st in Hcnt, Hb.
  split; [| split].
  - rewrite Hcnt. destruct (inited st); cbn; lia.
  - rewrite Hcnt. destruct (inited st); cbn; split; congruence.
  - intros i r rest others mc c Hpick Hp Hc st'.
    pose proof (built_context mc c (Hb mc Hp) Hc) as Herr.
    unfold st'. cbn [Chain.step]. rewrite Hpick, Hp.
    cbn [callback]. unfold pathParamsCallback. rewrite Herr.
    cbn [Js.truthy Js.prim_truthy set_tasks inited].
    destruct (inited st) eqn:Hin.
    + cbn. auto.
    + rewrite Hc. cbn. repeat split.
      eexists. split; [reflexivity |]. rewrite <- app_assoc. reflexivity.
Qed.

(** C10.  When the loaded document has no [components], or components
    without [securitySchemes], then no security middleware has been
    built or run, the slot [scmw] is empty, and the callback of
    [securityMiddleware] hands every request, untouched, to the next
    middleware and leaves the state as it is.  This holds whether or not
    security validation is enabled. *)
Theorem security_skipped_without_schemes (acts : list Action)
  (mc : MiddlewareContext) (c : OpenApiContext) :
  let st := run init acts in
  pContext st = Some mc -> context mc = Some c ->
  (components (apiDoc c) = None \/
   exists comps, components (apiDoc c) = Some comps /\
                 securitySchemes comps = None) ->
  count isSecurityCall (log st) = 0 /\
  scmw st = None /\
  (forall r s, securityCallback K self mc r s = (MwNext r, s)) /\
  forall i r rest others,
    pick i (tasks st) = Some (Then r SecurityMw rest, others) ->
    step st (Run i) = set_tasks (others ++ [Enter r rest]) st.
Proof.
  intros st Hp Hc Hcomp.
  assert (Hs : schemesOf (apiDoc c) = None).
  { unfold schemesOf. destruct Hcomp as [-> | (comps & -> & ->)]; reflexivity. }
  destruct (run_Inv acts) as (_ & _ & Hq & _). fold st in Hq.
  unfold quiet, no_schemes in Hq. rewrite Hp, Hc in Hq.
  destruct (Hq Hs) as [Hsc Hcnt].
  assert (Hcb : forall r s, securityCallback K self mc r s = (MwNext r, s)).
  { intros r s. unfold securityCallback. rewrite Hc, Hs.
    destruct (on (validateSecurity (options self))); reflexivity. }
  repeat split; auto.
  intros i r rest others Hpick. cbn [Chain.step]. rewrite Hpick, Hp.
  cbn [callback]. rewrite Hcb. reflexivity.
Qed.

End Installed.

Lemma failed_load_fails_every_request_witness :
  pContext (run passThrough plainValidator init
              (beforeLoad ++ Settle (Rejected enoent) :: afterLoad))
    = Some (failed enoent) /\
  (forall r o,
     In (r, o)
        (finished (run passThrough plainValidator init
                     (beforeLoad ++ Settle (Rejected enoent) :: afterLoad))) ->
     o = Forwarded enoent).
Proof.
  destruct (failed_load_fails_every_request passThrough plainValidator
              enoent beforeLoad afterLoad eq_refl eq_refl)
    as (H1 & _ & H3 & _).
  split; [exact H1 | exact H3].
Defined.

(** The run of the witness above, evaluated: the two requests that
    waited for the load and the one that came later were all forwarded
    the load error, in the order their callbacks ran. *)
Example failed_load_run :
  finished (run passThrough plainValidator init
              (beforeLoad ++ Settle (Rejected enoent) :: afterLoad
               ++ repeat (Run 0) 2))
  = [(request 1, Forwarded enoent); (request 2, Forwarded enoent);
     (request 3, Forwarded enoent)].
Proof. reflexivity. Qed.

(** A rejection with a falsy value is not seen by [if (error) throw
    error]: the request reaches [installPathParams] with a [null]
    context, and what is forwarded is the [TypeError] raised there. *)
Example falsy_rejection_run :
  finished (run passThrough plainValidator init
              [Settle (Rejected (Js.P Js.Undefined)); Arrive (request 1);
               Run 0; Run 0])
  = [(request 1, Forwarded nullContextError)].
Proof. reflexivity. Qed.

(** C5, as stated, fails: with operation handlers configured, one
    request taken through the chain calls [installPathParams] twice,
    once from [pathParamsMiddleware] on the application and once from
    [installOperationHandlers] on the router it builds. *)
Lemma installPathParams_called_twice :
  Validator.construct builtins handlerOpts = inr handlerValidator /\
  filter isInstall (log (run passThrough handlerValidator init oneRequest))
    = [CallInstallPathParams (OnApp 0) (Some petsContext);
       CallInstallPathParams (OnRouter 0) (Some petsContext)] /\
  ~ count isInstall (log (run passThrough handlerValidator init oneRequest)) <= 1.
Proof.
  split; [reflexivity |]. split; [reflexivity |].
  vm_compute. intros H. inversion H as [| ? H']. inversion H'.
Qed.

Lemma pathParams_installed_once_witness :
  count isAppInstall (log (run passThrough plainValidator init atPathParams)) <= 1 /\
  inited (step passThrough plainValidator
            (run passThrough plainValidator init atPathParams) (Run 0)) = true.
Proof.
  destruct (pathParams_installed_once passThrough plainValidator atPathParams)
    as (H1 & _ & H3).
  split; [exact H1 |].
  exact (proj1 (H3 0 (request 1) _ [] loaded petsContext
                  eq_refl eq_refl eq_refl)).
Defined.

Lemma security_skipped_without_schemes_witness :
  on (validateSecurity (options plainValidator)) = true /\
  count isSecurityCall (log (run passThrough plainValidator init atSecurity)) = 0 /\
  scmw (run passThrough plainValidator init atSecurity) = None /\
  tasks (step passThrough plainValidator
           (run passThrough plainValidator init atSecurity) (Run 0))
    = [Enter (request 1) [MultipartMw; RequestMw]].
Proof.
  destruct (security_skipped_without_schemes passThrough plainValidator
              atSecurity loaded petsContext eq_refl eq_refl
              (or_introl eq_refl))
    as (H1 & H2 & _ & H4).
  split; [reflexivity |]. split; [exact H1 |]. split; [exact H2 |].
  rewrite (H4 0 (request 1) [MultipartMw; RequestMw] [] eq_refl).
  reflexivity.
Defined.

End ChainFacts.

(* ================================================================== *)
(** ** Further properties of the error classes *)
(* ================================================================== *)

Module TypesMore.
Import Types Samples Observe.
Local Open Scope Z_scope.

(** X1.  Whatever its input, the status of the error [HttpError.create]
    returns is never 0: it is the input's [overrideStatus] if that is
    given and not 0, and otherwise one of 400, 401, 403, 404, 405, 406,
    413, 415, 500.  Headers are kept by [MethodNotAllowed] alone: the
    error carries the input's [headers] when the input status is 405,
    and none otherwise. *)
Theorem create_status_range (err : CreateArg) :
  status (create err) <> 0 /\
  (c_overrideStatus err = None \/ c_overrideStatus err = Some 0 ->
     In (status (create err)) createStatuses) /\
  (forall s, c_overrideStatus err = Some s -> s <> 0 ->
     status (create err) = s) /\
  headers (create err) = if c_status err =? 405 then c_headers err else None.
Proof.
  assert (H : exists d, In d createStatuses /\
                        status (create err) = Js.num_or (c_overrideStatus err) d).
  { unfold create.
    repeat match goal with
           | |- context [if ?b then _ else _] => destruct b
           end; cbn; eexists; (split; [| reflexivity]); cbn; auto 12. }
  destruct H as (d & Hd & ->).
  destruct (TypesFacts.num_or_cases (c_overrideStatus err) d) as [H0 Hs].
  split; [| split; [| split]].
  - unfold Js.num_or. destruct (c_overrideStatus err) as [z |].
    + destruct (z =? 0) eqn:E; [| now apply Z.eqb_neq].
      cbn in Hd. intuition lia.
    + cbn in Hd. intuition lia.
  - intros H. now rewrite (H0 H).
  - exact Hs.
  - unfold create.
    destruct (c_status err =? 405) eqn:E.
    + apply Z.eqb_eq in E. rewrite E. reflexivity.
    + repeat match goal with
             | |- context [if ?b then _ else _] => destruct b
             end; try reflexivity; discriminate.
Qed.

Lemma create_status_range_witness :
  In (status (create (sampleCreate 404))) createStatuses /\
  status (create (sampleOverride 404 418)) = 418 /\
  headers (create (sampleOverride 405 418)) = Some (mkHeaders (Some "GET")) /\
  headers (create (sampleOverride 404 418)) = None.
Proof.
  destruct (create_status_range (sampleCreate 404)) as (_ & H1 & _).
  destruct (create_status_range (sampleOverride 404 418)) as (_ & _ & H2 & H4).
  destruct (create_status_range (sampleOverride 405 418)) as (_ & _ & _ & H3).
  split; [apply H1; left; reflexivity |].
  split; [apply H2; [reflexivity | discriminate] |].
  split; [exact H3 | exact H4].
Defined.

(** X2.  [HttpError.create] keeps a supplied [errors] list only for
    status 400 and for the statuses it turns into 500; for 401, 403,
    404, 405, 406, 413 and 415 the list is dropped and [errors] is the
    single item made of the path and the message. *)
Theorem create_keeps_errors (err : CreateArg) (l : list ValidationErrorItem) :
  c_errors err = Some l ->
  (~ In (c_status err) droppingStatuses -> errors (create err) = l) /\
  (In (c_status err) droppingStatuses ->
     errors (create err)
     = [mkItem (Some (c_path err)) (c_message err) None]).
Proof.
  intros Hl. split.
  - intros Hnot. cbn in Hnot.
    assert (H : forall k, In k droppingStatuses -> (c_status err =? k) = false).
    { intros k Hk. apply Z.eqb_neq. intros Heq. apply Hnot.
      cbn in Hk |- *. rewrite Heq. exact Hk. }
    unfold create.
    rewrite (H 401), (H 403), (H 404), (H 405), (H 406), (H 413), (H 415)
      by (cbn; auto 12).
    destruct (c_status err =? 400); cbn; rewrite Hl; reflexivity.
  - intros Hin. cbn in Hin.
    repeat (destruct Hin as [Hs | Hin];
            [ rewrite (TypesFacts.create_unfold err _ (eq_sym Hs));
              reflexivity | ]).
    contradiction.
Qed.

Lemma create_keeps_errors_witness :
  errors (create (sampleCreate 400)) = [sampleItem] /\
  errors (create (sampleCreate 404))
  = [mkItem (Some "/pets") (Some "boom") None].
Proof.
  split.
  - apply (proj1 (create_keeps_errors (sampleCreate 400) [sampleItem] eq_refl)).
    cbn. lia.
  - apply (proj2 (create_keeps_errors (sampleCreate 404) [sampleItem] eq_refl)).
    cbn. auto 12.
Defined.

(** X3.  In each of the nine subclasses a given [overrideStatus]
    replaces the status of the class, except that [overrideStatus: 0]
    counts as not given. *)
Theorem overrideStatus_wins_unless_zero (arg : SubArg) (s : Z)
  (make : SubArg -> HttpError) (d : Z) :
  In (make, d) subclasses ->
  s_overrideStatus arg = Some s ->
  status (make arg) = if s =? 0 then d else s.
Proof.
  intros Hin Hs. cbn in Hin.
  repeat (destruct Hin as [Heq | Hin];
          [ injection Heq as <- <-; cbn; rewrite Hs; reflexivity | ]).
  contradiction.
Qed.

Lemma overrideStatus_wins_unless_zero_witness :
  status (newNotFound (sampleSub (Some 410))) = 410 /\
  status (newNotFound (sampleSub (Some 0))) = 404.
Proof.
  split.
  - apply (overrideStatus_wins_unless_zero (sampleSub (Some 410)) 410
             newNotFound 404); [cbn; auto 12 | reflexivity].
  - apply (overrideStatus_wins_unless_zero (sampleSub (Some 0)) 0
             newNotFound 404); [cbn; auto 12 | reflexivity].
Defined.

End TypesMore.

(* ================================================================== *)
(** ** Further properties of the constructor *)
(* ================================================================== *)

Module ValidatorMore.
Import Opts Validator Samples Observe.
Local Open Scope list_scope.

Lemma prepare_keeps (o : Options) :
  apiSpec (prepare o) = apiSpec o /\
  securityHandlers (prepare o) = securityHandlers o /\
  multerOpts (prepare o) = multerOpts o /\
  unknownFormats (prepare o) = unknownFormats o /\
  coerceTypes (prepare o) = coerceTypes o /\
  serDes (prepare o) = serDes o /\
  ajvFormats (prepare o) = ajvFormats o.
Proof. repeat split. Qed.

(** [validateOptions] looks at the four fields of [allowed], in that
    order. *)
Lemma validateOptions_allowed (o : Options) :
  (exists w, validateOptions o = inr w) <-> allowed o = true.
Proof.
  unfold validateOptions, allowed, unknownFormatsAllowed.
  destruct (Js.truthy (apiSpec o)); cbn;
    [| split; [intros [w H]; discriminate | discriminate]].
  destruct (securityHandlers o); cbn;
    [split; [intros [w H]; discriminate | discriminate] |].
  destruct (multerOpts o); cbn;
    [split; [intros [w H]; discriminate | discriminate] |].
  destruct (unknownFormats o) as [[[|] | s | l] |]; cbn;
    try destruct (String.eqb s "ignore");
    split; try (intros [w H]; discriminate); try discriminate;
    try reflexivity; intros _; eexists; reflexivity.
Qed.

Lemma construct_allowed (ds : list SerDes) (o : Options) :
  (exists v, construct ds o = inr v) <-> allowed o = true.
Proof.
  rewrite <- validateOptions_allowed. unfold construct.
  assert (Hsame : allowed (prepare o) = allowed o) by reflexivity.
  split.
  - intros [v H].
    destruct (validateOptions (prepare o)) as [e | w] eqn:Hv; [discriminate |].
    apply validateOptions_allowed. rewrite <- Hsame.
    apply validateOptions_allowed. eexists. exact Hv.
  - intros Hw. apply validateOptions_allowed in Hw. rewrite <- Hsame in Hw.
    apply validateOptions_allowed in Hw as [w ->].
    destruct (ValidatorFacts.normalizeOptions_total ds o) as [n ->].
    eexists. reflexivity.
Qed.

(** What a successful constructor leaves in [options]. *)
Lemma construct_shape (ds : list SerDes) (o : Options) (v : OpenApiValidator) :
  construct ds o = inr v -> options v = finalOptions ds o.
Proof.
  intros H.
  assert (Ha : allowed o = true) by (apply (construct_allowed ds); eauto).
  unfold construct in H.
  destruct (validateOptions (prepare o)) as [e | w]; [discriminate |].
  destruct (normalizeOptions ds (prepare o)) as [e | n] eqn:Hn; [discriminate |].
  injection H as <-. cbn [options].
  unfold allowed in Ha. apply andb_prop in Ha as [_ Hu].
  destruct o as [a vas vres vreq vsec ip iu sh ct uru uf sd fm af fu mo rp oh vf].
  unfold normalizeOptions, prepare, applyDefaults, finalOptions,
    finalFormats, finalAjvFormats, finalValidateFormats, setTrue in *.
  cbn in Hn, Hu |- *.
  destruct uf as [[[|] | s | [| x l]] |]; cbn in Hu; try discriminate;
    try (apply String.eqb_eq in Hu; subst s);
    destruct vf as [[[|] | m] |]; destruct af as [af |];
    destruct fm as [[fl | fo] |]; cbn in Hn |- *;
    injection Hn as <-; reflexivity.
Qed.

(** X4.  The constructor returns a validator exactly when [apiSpec] is
    truthy, neither [securityHandlers] nor [multerOpts] is given, and
    [unknownFormats] is absent, [true], ['ignore'] or an array; no other
    option can make it throw. *)
Theorem construct_succeeds_iff_allowed (ds : list SerDes) (o : Options) :
  (exists v, construct ds o = inr v) <-> allowed o = true.
Proof. apply construct_allowed. Qed.

Lemma construct_succeeds_iff_allowed_witness :
  (exists v, construct builtins minimal = inr v) /\
  allowed (with_unknownFormats (Some (UFArray ["x"%string])) minimal) = true.
Proof.
  split.
  - apply (proj2 (construct_succeeds_iff_allowed builtins minimal)).
    reflexivity.
  - apply (proj1 (construct_succeeds_iff_allowed builtins
                    (with_unknownFormats (Some (UFArray ["x"%string])) minimal))).
    eexists. reflexivity.
Defined.

(** X5.  With [apiSpec] given, the constructor reports the first of:
    [securityHandlers] present, [multerOpts] present, [unknownFormats]
    being [false] or a string other than ['ignore'], each with its own
    message. *)
Theorem construct_rejections (ds : list SerDes) (o : Options) :
  Js.truthy (apiSpec o) = true ->
  (securityHandlers o <> None ->
     construct ds o = inl (PlainError
       "securityHandlers is not supported. Use validateSecurities.handlers instead.")) /\
  (securityHandlers o = None -> multerOpts o <> None ->
     construct ds o = inl (PlainError
       "multerOpts is not supported. Use fileUploader instead.")) /\
  (securityHandlers o = None -> multerOpts o = None ->
   unknownFormatsAllowed (unknownFormats o) = false ->
     construct ds o = inl (PlainError unknownFormatsMsg)).
Proof.
  intros Ha. unfold construct, validateOptions.
  change (apiSpec (prepare o)) with (apiSpec o).
  change (securityHandlers (prepare o)) with (securityHandlers o).
  change (multerOpts (prepare o)) with (multerOpts o).
  change (unknownFormats (prepare o)) with (unknownFormats o).
  rewrite Ha. cbn [negb].
  split; [| split].
  - intros H. destruct (securityHandlers o); [reflexivity | congruence].
  - intros -> H. destruct (multerOpts o); [reflexivity | congruence].
  - intros -> -> H. unfold unknownFormatsAllowed in H.
    destruct (unknownFormats o) as [[[|] | s | l] |]; try discriminate.
    + reflexivity.
    + rewrite H. reflexivity.
Qed.

Lemma construct_rejections_witness :
  construct builtins (with_securityHandlers (Some []) minimal)
  = inl (PlainError
      "securityHandlers is not supported. Use validateSecurities.handlers instead.") /\
  construct builtins (with_multerOpts (Some (mkMulter None)) minimal)
  = inl (PlainError "multerOpts is not supported. Use fileUploader instead.") /\
  construct builtins (with_unknownFormats (Some (UFBool false)) minimal)
  = inl (PlainError unknownFormatsMsg).
Proof.
  split; [| split].
  - apply (proj1 (construct_rejections builtins
                    (with_securityHandlers (Some []) minimal) eq_refl)).
    discriminate.
  - apply (proj1 (proj2 (construct_rejections builtins
                    (with_multerOpts (Some (mkMulter None)) minimal) eq_refl)));
      [reflexivity | discriminate].
  - apply (proj2 (proj2 (construct_rejections builtins
                    (with_unknownFormats (Some (UFBool false)) minimal) eq_refl)));
      reflexivity.
Defined.

(** X6.  The options of every validator the constructor returns have the
    shape of the declared normalized type in the fields it rewrites: the
    three [validate...] switches are [false] or an object, never [true]
    or missing; [formats] is an object, never an array; [validateFormats]
    is a boolean, never a string; [operationHandlers] is neither a
    string nor [undefined]; and [validateApiSpec], [fileUploader],
    [$refParser] and [serDes] are present. *)
Theorem construct_normalizes (ds : list SerDes) (o : Options)
  (v : OpenApiValidator) :
  construct ds o = inr v -> normalized (options v).
Proof.
  intros H. rewrite (construct_shape ds o v H).
  unfold normalized, finalOptions. cbn.
  repeat split; try discriminate.
  - destruct (validateResponses o) as [[[|] | r] |]; exact I.
  - destruct (validateRequests o) as [[[|] | r] |]; exact I.
  - destruct (validateSecurity o) as [[[|] | r] |]; exact I.
  - destruct (operationHandlers o); exact I.
Qed.

Lemma construct_normalizes_witness :
  normalized (options plainValidator) /\ normalized (options handlerValidator).
Proof.
  split.
  - apply (construct_normalizes builtins minimal). reflexivity.
  - apply (construct_normalizes builtins handlerOpts). reflexivity.
Defined.

(** X7.  Options that give [apiSpec] and nothing else lead to: spec,
    request and security validation on (the latter two as objects with
    [allowUnknownQueryParameters: false], [coerceTypes: false] and no
    handlers), response validation off, an empty [fileUploader] object,
    [$refParser] in bundle mode, format validation on in ['fast'] mode,
    no operation handlers, an empty [formats] object, and the built-in
    SerDes list. *)
Theorem construct_defaults (ds : list SerDes) (a : Js.Val Document) :
  Js.truthy a = true ->
  construct ds (with_apiSpec a minimal)
  = inr (mkValidator
      {| apiSpec := a;
         validateApiSpec := Some true;
         validateResponses := Some (IsBool false);
         validateRequests :=
           Some (IsObj (mkReqOpts None (Some false) (Some (CoerceBool false)) None));
         validateSecurity := Some (IsObj (mkSecOpts None));
         ignorePaths := None;
         ignoreUndocumented := None;
         securityHandlers := None;
         coerceTypes := None;
         useRequestUrl := Some false;
         unknownFormats := None;
         serDes := Some ds;
         formats := Some (FormatsObject []);
         ajvFormats := Some (mkAjvFormats "fast");
         fileUploader := Some (IsObj (mkMulter None));
         multerOpts := None;
         refParser := Some Bundle;
         operationHandlers := OHFalse;
         validateFormats := Some (VFBool true) |}).
Proof.
  intros Ha. unfold construct, validateOptions.
  change (apiSpec (prepare (with_apiSpec a minimal))) with a.
  rewrite Ha. reflexivity.
Qed.

Lemma construct_defaults_witness :
  exists v, construct builtins (with_apiSpec (Js.P (Js.Str "./api.yaml")) minimal)
            = inr v /\
            validateResponses (options v) = Some (IsBool false) /\
            serDes (options v) = Some builtins.
Proof.
  eexists. split.
  - apply (construct_defaults builtins (Js.P (Js.Str "./api.yaml"))).
    reflexivity.
  - split; reflexivity.
Defined.



(** *** Objects as association lists *)

Lemma lookup_assign_same {A} (k : string) (v : A) (o : list (string * A)) :
  lookup k (assign k v o) = Some v.
Proof.
  induction o as [| [k' v'] o IH]; cbn.
  - now rewrite String.eqb_refl.
  - destruct (String.eqb k k') eqn:E; cbn; rewrite ?String.eqb_refl, ?E; auto.
Qed.

Lemma lookup_assign_other {A} (k k' : string) (v : A) (o : list (string * A)) :
  k <> k' -> lookup k (assign k' v o) = lookup k o.
Proof.
  intros Hne. induction o as [| [k'' v''] o IH]; cbn.
  - apply String.eqb_neq in Hne. now rewrite Hne.
  - destruct (String.eqb k' k'') eqn:E; cbn.
    + apply String.eqb_eq in E. subst k''.
      apply String.eqb_neq in Hne. now rewrite Hne.
    + now rewrite IH.
Qed.

Lemma assign_same_noop {A} (k : string) (v : A) (o : list (string * A)) :
  lookup k o = Some v -> assign k v o = o.
Proof.
  induction o as [| [k' v'] o IH]; cbn; [discriminate |].
  destruct (String.eqb k k') eqn:E.
  - intros H. injection H as ->. apply String.eqb_eq in E. now subst.
  - intros H. now rewrite IH.
Qed.

Lemma assign_keys {A} (k : string) (v : A) (o : list (string * A)) :
  NoDup (map fst o) -> NoDup (map fst (assign k v o)) /\
  forall x, In x (map fst (assign k v o)) <-> x = k \/ In x (map fst o).
Proof.
  induction o as [| [k' v'] o IH]; cbn; intros Hnd.
  - split; [repeat constructor; auto | intros x; intuition auto].
  - inversion Hnd as [| ? ? Hnot Hnd']; subst.
    destruct (String.eqb k k') eqn:E; cbn.
    + apply String.eqb_eq in E. subst k'. split; [assumption |].
      intros x. intuition auto.
    + destruct (IH Hnd') as [IH1 IH2]. split.
      * constructor; [| assumption]. rewrite IH2. intros [-> | Hin].
        -- now rewrite String.eqb_refl in E.
        -- contradiction.
      * intros x. rewrite IH2. intuition auto.
Qed.

Lemma setTrue_other (l : list string) (o : list (string * AjvFormat))
  (k : string) :
  ~ In k l -> lookup k (setTrue l o) = lookup k o.
Proof.
  unfold setTrue. revert o. induction l as [| x l IH]; intros o Hnot; cbn.
  - reflexivity.
  - rewrite IH by (intros H; apply Hnot; now right).
    apply lookup_assign_other. intros ->. apply Hnot. now left.
Qed.

Lemma setTrue_keeps_true (l : list string) (o : list (string * AjvFormat))
  (k : string) :
  lookup k o = Some FTrue -> lookup k (setTrue l o) = Some FTrue.
Proof.
  unfold setTrue. revert o. induction l as [| x l IH]; intros o H; cbn.
  - exact H.
  - apply IH. destruct (string_dec k x) as [-> | Hne].
    + apply lookup_assign_same.
    + now rewrite lookup_assign_other.
Qed.

Lemma setTrue_in (l : list string) (o : list (string * AjvFormat))
  (k : string) :
  In k l -> lookup k (setTrue l o) = Some FTrue.
Proof.
  revert o. induction l as [| x l IH]; intros o Hin; [contradiction |].
  change (setTrue (x :: l) o) with (setTrue l (assign x FTrue o)).
  destruct Hin as [-> | Hin].
  - apply setTrue_keeps_true, lookup_assign_same.
  - now apply IH.
Qed.

Lemma setTrue_idem (l : list string) (o : list (string * AjvFormat)) :
  (forall k, In k l -> lookup k o = Some FTrue) -> setTrue l o = o.
Proof.
  unfold setTrue. induction l as [| x l IH]; intros H; cbn; [reflexivity |].
  rewrite assign_same_noop by (apply H; now left).
  apply IH. intros k Hk. apply H. now right.
Qed.

(** *** The SerDes loop *)

Lemma findFormat_found (f : string) (l : list SerDes) :
  (exists e, In e l /\ format e = f) -> findFormat f l <> None.
Proof.
  intros (e & Hin & Hf) Hnone.
  exact (ValidatorFacts.findFormat_none f l Hnone e Hin Hf).
Qed.

Lemma forEach_covered (ds l : list SerDes) :
  (forall d, In d ds -> exists e, In e l /\ format e = format d) ->
  normalizeSerDes ds (Some l) = l.
Proof.
  unfold normalizeSerDes. induction ds as [| d ds IH]; intros H; cbn.
  - reflexivity.
  - destruct (findFormat (format d) l) eqn:E.
    + apply IH. intros d' Hd. apply H. now right.
    + exfalso. apply (findFormat_found (format d) l); [| exact E].
      apply H. now left.
Qed.

Lemma normalizeSerDes_idem (ds : list SerDes) (s : option (list SerDes)) :
  normalizeSerDes ds (Some (normalizeSerDes ds s)) = normalizeSerDes ds s.
Proof.
  apply forEach_covered. intros d Hd.
  destruct s as [user |].
  - destruct (ValidatorFacts.forEach_appends ds user)
      as (added & Heq & _ & _ & Hcov).
    rewrite Heq. auto.
  - exists d. auto.
Qed.

Lemma NoDup_snoc {A} (l : list A) (x : A) :
  NoDup l -> ~ In x l -> NoDup (l ++ [x]).
Proof.
  induction l as [| y l IH]; cbn; intros Hnd Hnot.
  - repeat constructor. auto.
  - inversion Hnd as [| ? ? Hy Hnd']; subst. constructor.
    + intros Hin. apply in_app_or in Hin as [Hin | [-> | []]]; auto.
    + apply IH; auto.
Qed.

Lemma finalOptions_idem (ds : list SerDes) (o : Options) :
  finalOptions ds (finalOptions ds o) = finalOptions ds o.
Proof.
  destruct o as [a vas vres vreq vsec ip iu sh ct uru uf sd fm af fu mo rp oh vf].
  unfold finalOptions. cbn [apiSpec validateApiSpec validateResponses
    validateRequests validateSecurity ignorePaths ignoreUndocumented
    securityHandlers coerceTypes useRequestUrl unknownFormats serDes formats
    ajvFormats fileUploader multerOpts refParser operationHandlers
    validateFormats Js.coalesce].
  f_equal.
  - destruct vres as [[[|] | r] |]; reflexivity.
  - destruct vreq as [[[|] | r] |]; reflexivity.
  - destruct vsec as [[[|] | r] |]; reflexivity.
  - f_equal. apply normalizeSerDes_idem.
  - do 2 f_equal. unfold finalFormats. cbn.
    destruct uf as [[b | s | l] |]; try reflexivity.
    apply setTrue_idem. intros k Hk. now apply setTrue_in.
  - unfold finalAjvFormats, finalValidateFormats. cbn.
    destruct af as [x |]; [reflexivity |].
    destruct vf as [[[|] | m] |]; try reflexivity.
    destruct uf as [[b | s | l] |]; reflexivity.
  - destruct oh; reflexivity.
  - do 2 f_equal. unfold finalValidateFormats. cbn.
    destruct uf as [[b | s | l] |]; try reflexivity;
      destruct vf as [[[|] | m] |]; reflexivity.
Qed.

(** X8.  Building a second validator from the options object a first
    construction left behind gives the same options again: nothing is
    added twice to [serDes] or [formats], and no default is applied
    anew. *)
Theorem construct_idempotent (ds : list SerDes) (o : Options)
  (v : OpenApiValidator) :
  construct ds o = inr v -> construct ds (options v) = inr v.
Proof.
  intros H.
  pose proof (construct_shape ds o v H) as Hv.
  assert (Ha : allowed (options v) = true).
  { rewrite Hv. change (allowed (finalOptions ds o)) with (allowed o).
    apply (construct_allowed ds). eauto. }
  apply (construct_allowed ds) in Ha as [v' Hv'].
  pose proof (construct_shape ds _ v' Hv') as Hn.
  rewrite Hv, finalOptions_idem, <- Hv in Hn.
  rewrite Hv'. f_equal. destruct v, v'. cbn in Hn. now subst.
Qed.

Lemma construct_idempotent_witness :
  construct builtins (options handlerValidator) = inr handlerValidator.
Proof.
  apply (construct_idempotent builtins handlerOpts). reflexivity.
Defined.

(** X9.  If no two entries of the user's [serDes] list carry the same
    format name, then none of the normalized list do, even when the
    built-in list itself repeats a name. *)
Theorem serDes_formats_stay_distinct (ds user : list SerDes) :
  NoDup (map format user) ->
  NoDup (map format (normalizeSerDes ds (Some user))).
Proof.
  unfold normalizeSerDes. revert user.
  induction ds as [| d ds IH]; intros user Hnd; cbn; [assumption |].
  destruct (findFormat (format d) user) eqn:E; [now apply IH |].
  apply IH. rewrite map_app. cbn. apply NoDup_snoc; [assumption |].
  intros Hin. apply in_map_iff in Hin as (u & Hf & Hu).
  exact (ValidatorFacts.findFormat_none _ _ E u Hu Hf).
Qed.

Lemma serDes_formats_stay_distinct_witness :
  NoDup (map format
           (normalizeSerDes [dateSerDes; dateSerDes; dateTimeSerDes]
              (Some [userMongo]))).
Proof.
  apply serDes_formats_stay_distinct. repeat constructor; cbn; tauto.
Defined.

Lemma formatsOfArray_step (l : list Format) (o : list (string * AjvFormat)) :
  fold_left
    (fun formats f =>
       match fmt_type f with
       | Some t => assign (fmt_name f) (FTyped t (fmt_validate f)) formats
       | None => assign (fmt_name f) (FValidate (fmt_validate f)) formats
       end) l o
  = fold_left (fun formats f => assign (fmt_name f) (formatValue f) formats) l o.
Proof.
  revert o. induction l as [| f l IH]; intros o; cbn; [reflexivity |].
  rewrite IH. unfold formatValue. destruct (fmt_type f); reflexivity.
Qed.

Lemma lookup_fold_formats (n : string) (l : list Format)
  (o : list (string * AjvFormat)) :
  lookup n (fold_left (fun formats f => assign (fmt_name f) (formatValue f) formats) l o)
  = match lastNamed n l with
    | Some f => Some (formatValue f)
    | None => lookup n o
    end.
Proof.
  unfold lastNamed. induction l as [| f l IH] using rev_ind; [reflexivity |].
  rewrite fold_left_app, rev_app_distr. cbn.
  destruct (String.eqb n (fmt_name f)) eqn:E.
  - apply String.eqb_eq in E. subst n. apply lookup_assign_same.
  - apply String.eqb_neq in E. rewrite lookup_assign_other by assumption.
    exact IH.
Qed.

Lemma keys_fold_formats (l : list Format) (o : list (string * AjvFormat)) :
  NoDup (map fst o) ->
  NoDup (map fst (fold_left
           (fun formats f => assign (fmt_name f) (formatValue f) formats) l o)).
Proof.
  revert o. induction l as [| f l IH]; intros o H; cbn; [assumption |].
  apply IH. now apply assign_keys.
Qed.

(** X10.  Converting a [formats] array gives an object with one
    property per name; where the array repeats a name, the last entry
    wins; an entry with a [type] is stored as [{type, validate}], one
    without as its [validate] function. *)
Theorem formats_array_last_wins (l : list Format) (n : string) :
  NoDup (map fst (formatsOfArray l)) /\
  lookup n (formatsOfArray l) = option_map formatValue (lastNamed n l).
Proof.
  unfold formatsOfArray. rewrite formatsOfArray_step. split.
  - apply keys_fold_formats. constructor.
  - rewrite lookup_fold_formats. destruct (lastNamed n l); reflexivity.
Qed.

(** X11.  With [unknownFormats] given as an array, every name in it
    ends up mapped to [true] in [formats], also where the caller had
    supplied a format of that name; every other name keeps what the
    caller's [formats] gave it. *)
Theorem unknownFormats_array_sets_true (ds : list SerDes) (o : Options)
  (v : OpenApiValidator) (l : list string) :
  construct ds o = inr v ->
  unknownFormats o = Some (UFArray l) ->
  exists fo given,
    formats (options v) = Some (FormatsObject fo) /\
    finalFormats (with_unknownFormats None o) = given /\
    (forall k, In k l -> lookup k fo = Some FTrue) /\
    (forall k, ~ In k l -> lookup k fo = lookup k given).
Proof.
  intros H Hu. rewrite (construct_shape ds o v H).
  exists (finalFormats o), (finalFormats (with_unknownFormats None o)).
  split; [reflexivity |]. split; [reflexivity |].
  unfold finalFormats. rewrite Hu. cbn.
  split; intros k Hk; [now apply setTrue_in | now apply setTrue_other].
Qed.

Lemma unknownFormats_array_sets_true_witness :
  exists v fo,
    construct builtins
      (with_unknownFormats (Some (UFArray ["id"%string]))
         (with_formats (Some (FormatsArray twoFormats)) minimal)) = inr v /\
    formats (options v) = Some (FormatsObject fo) /\
    lookup "id" fo = Some FTrue.
Proof.
  eexists.
  destruct (unknownFormats_array_sets_true builtins
              (with_unknownFormats (Some (UFArray ["id"%string]))
                 (with_formats (Some (FormatsArray twoFormats)) minimal))
              _ ["id"%string] eq_refl eq_refl)
    as (fo & given & Hf & _ & Hin & _).
  exists fo. split; [reflexivity |]. split; [exact Hf |].
  apply Hin. now left.
Defined.

End ValidatorMore.

(* ================================================================== *)
(** ** Further properties of the middleware chain *)
(* ================================================================== *)

Module ChainMore.
Import Opts Validator Chain ChainInvariants Samples Observe.
Local Open Scope nat_scope.
Local Open Scope list_scope.

(** X12.  The chain of a constructed validator, read off the options
    the caller gave: the path-parameter, metadata and security
    middlewares always; then multipart unless [fileUploader] is [false];
    request validation unless [validateRequests] is [false]; response
    validation only if [validateResponses] is [true] or an object; the
    operation handlers only if [operationHandlers] is a string or an
    object; in this order. *)
Theorem chain_of_options (ds : list SerDes) (o : Options)
  (v : OpenApiValidator) :
  construct ds o = inr v ->
  installMiddleware v
  = [PathParamsMw; MetadataMw; SecurityMw]
    ++ (if wantsMultipart o then [MultipartMw] else [])
    ++ (if wantsRequests o then [RequestMw] else [])
    ++ (if wantsResponses o then [ResponseMw] else [])
    ++ (if wantsHandlers o then [OperationHandlersMw] else []).
Proof.
  intros H. unfold installMiddleware.
  rewrite (ValidatorMore.construct_shape ds o v H).
  unfold finalOptions, wantsMultipart, wantsRequests, wantsResponses,
    wantsHandlers. cbn.
  destruct (fileUploader o) as [[[|] | fu] |];
    destruct (validateRequests o) as [[[|] | vr] |];
    destruct (validateResponses o) as [[[|] | vs] |];
    destruct (operationHandlers o) as [| | | s | oh]; reflexivity.
Qed.

Lemma chain_of_options_witness :
  installMiddleware plainValidator
  = [PathParamsMw; MetadataMw; SecurityMw; MultipartMw; RequestMw] /\
  installMiddleware handlerValidator
  = [PathParamsMw; MetadataMw; SecurityMw; OperationHandlersMw].
Proof.
  split.
  - apply (chain_of_options builtins minimal). reflexivity.
  - apply (chain_of_options builtins handlerOpts). reflexivity.
Defined.

Lemma uniq_from (l seen : list string) :
  NoDup seen ->
  let r := fold_left
             (fun seen p =>
                if existsb (String.eqb p) seen then seen else seen ++ [p])
             l seen in
  NoDup r /\ forall x, In x r <-> In x seen \/ In x l.
Proof.
  revert seen. induction l as [| p l IH]; intros seen Hnd; cbn.
  - split; [assumption | intros x; tauto].
  - destruct (existsb (String.eqb p) seen) eqn:E.
    + destruct (IH seen Hnd) as [H1 H2]. split; [assumption |].
      intros x. rewrite H2. split; [tauto |].
      intros [H | [<- | H]]; auto.
      left. apply existsb_exists in E as (y & Hy & Heq).
      apply String.eqb_eq in Heq. now subst.
    + assert (Hnot : ~ In p seen).
      { intros Hin. assert (existsb (String.eqb p) seen = true).
        { apply existsb_exists. exists p. split; [assumption |].
          apply String.eqb_refl. }
        congruence. }
      destruct (IH (seen ++ [p]) (ValidatorMore.NoDup_snoc _ _ Hnd Hnot))
        as [H1 H2].
      split; [assumption |]. intros x. rewrite H2, in_app_iff. cbn. tauto.
Qed.

Lemma collected_from (rs : list RouteMetadata) (acc : list string) (x : string) :
  In x (fold_left
          (fun acc route =>
             if 0 <? List.length (pathParams route)
             then acc ++ pathParams route else acc) rs acc)
  <-> In x acc \/ exists route, In route rs /\ In x (pathParams route).
Proof.
  revert acc. induction rs as [| route rs IH]; intros acc; cbn.
  - split; [tauto | intros [H | (r & [] & _)]; assumption].
  - rewrite IH. destruct (pathParams route) as [| p ps] eqn:E; cbn.
    + split.
      * intros [H | (r & Hr & Hx)]; [tauto | right; exists r; tauto].
      * intros [H | (r & [<- | Hr] & Hx)]; [tauto | | right; exists r; tauto].
        rewrite E in Hx. contradiction.
    + rewrite in_app_iff. split.
      * intros [[H | H] | (r & Hr & Hx)]; [tauto | | right; exists r; tauto].
        right. exists route. rewrite E. tauto.
      * intros [H | (r & [<- | Hr] & Hx)]; [tauto | | right; exists r; tauto].
        rewrite E in Hx. tauto.
Qed.

(** X14.  [installPathParams] registers each path parameter name of the
    routes exactly once: the names it hands to [app.param] contain no
    duplicates, and a name is among them exactly when some route has it
    as a path parameter. *)
Theorem installPathParams_names (c : OpenApiContext) (names : list string) :
  installPathParams (Some c) = inr names ->
  NoDup names /\
  forall p, In p names <->
            exists route, In route (routes c) /\ In p (pathParams route).
Proof.
  unfold installPathParams, uniq. intros H. injection H as <-.
  match goal with
  | |- NoDup (fold_left _ ?l []) /\ _ =>
      destruct (uniq_from l [] (NoDup_nil _)) as [H1 H2]
  end.
  split; [exact H1 |]. intros p. rewrite H2, collected_from. cbn. tauto.
Qed.

Lemma installPathParams_names_witness :
  NoDup ["id"%string] /\
  (In "id"%string ["id"%string] <->
   exists route, In route (routes petsContext) /\ In "id"%string (pathParams route)).
Proof.
  destruct (installPathParams_names petsContext ["id"%string] eq_refl)
    as [H1 H2].
  split; [exact H1 | exact (H2 "id"%string)].
Defined.

Lemma prefix_append (b p : string) : String.prefix b (b ++ p)%string = true.
Proof.
  induction b as [| c b IH]; cbn.
  - destruct p; reflexivity.
  - destruct (Ascii.ascii_dec c c) as [_ | Hne]; [exact IH | congruence].
Qed.

Lemma substring_all (p : string) : String.substring 0 (String.length p) p = p.
Proof. induction p as [| c p IH]; cbn; [reflexivity | now rewrite IH]. Qed.

Lemma substring_append (b p : string) :
  String.substring (String.length b)
    (String.length (b ++ p)%string - String.length b) (b ++ p)%string = p.
Proof.
  induction b as [| c b IH]; cbn.
  - rewrite Nat.sub_0_r. apply substring_all.
  - exact IH.
Qed.

(** X15.  The path a handler is registered under is the Express route
    with the mount path taken off the front: for a route that starts
    with [baseUrl] the rest is what remains, and an empty [baseUrl]
    leaves the route as it is. *)
Theorem routePath_strips_baseUrl (b p : string) :
  routePath b (b ++ p)%string = p /\ routePath "" p = p.
Proof.
  unfold routePath. split.
  - rewrite prefix_append. apply substring_append.
  - rewrite (prefix_append "" p : String.prefix "" p = true).
    cbn. rewrite Nat.sub_0_r. apply substring_all.
Qed.

Section Installed.

Variable K : Collaborators.
Variable self : OpenApiValidator.

Local Abbreviation step := (Chain.step K self).
Local Abbreviation run := (Chain.run K self).

Lemma isOperationHandlerOptions_resolver (h : OperationHandlers)
  (oh : OperationHandlerOptions) :
  isOperationHandlerOptions h = inr (Some oh) ->
  exists r, oh_resolver oh = Some r.
Proof.
  unfold isOperationHandlerOptions. destruct h as [| | | s | o]; try discriminate.
  destruct (oh_resolver o) as [r |] eqn:Er; [| discriminate].
  intros H. injection H as <-. eauto.
Qed.

Lemma installRoutes_spec (b : string) (d : Document)
  (rs : list RouteMetadata) (acc hs : list (string * string * Fn)) :
  installRoutes K self b d rs acc = inr hs ->
  match isOperationHandlerOptions (operationHandlers (options self)) with
  | inr (Some oh) =>
      exists r new, oh_resolver oh = Some r /\ hs = acc ++ new /\
                    Forall2 (installed K r oh b d) rs new
  | inr None => hs = acc
  | inl _ => rs = [] /\ hs = acc
  end.
Proof.
  revert acc. induction rs as [| route rs IH]; intros acc H; cbn in H.
  - injection H as <-.
    destruct (isOperationHandlerOptions _) as [e | [oh |]] eqn:E; auto.
    destruct (isOperationHandlerOptions_resolver _ _ E) as [r Hr].
    exists r, []. rewrite app_nil_r. auto.
  - destruct (isOperationHandlerOptions _) as [e | [oh |]] eqn:E;
      [discriminate | | now apply IH].
    destruct (isOperationHandlerOptions_resolver _ _ E) as [r Er].
    rewrite Er in H.
    destruct (resolve K r (oh_basePath oh) route d) as [e | h] eqn:Hr;
      [discriminate |].
    apply IH in H as (r' & new & Hr' & -> & Hall).
    assert (r' = r) by congruence. subst r'.
    exists r, ((toLowerCase (method route),
                routePath b (expressRoute route), h) :: new).
    rewrite <- app_assoc. repeat split; auto.
    constructor; [| assumption]. split; [exact Hr | reflexivity].
Qed.

(** X16.  A router that [installOperationHandlers] returns carries the
    path parameters [installPathParams] registers and, when the options
    hold a resolver, one handler per route of the context, in route
    order: the handler the resolver returned for that route, under the
    lower-cased method and the route path without the mount path.
    Without a resolver it carries no handler; and when the operation
    handlers are [null] or [undefined], so that reading their resolver
    throws, a router is returned only for a context without routes. *)
Theorem installOperationHandlers_router (b : string) (ctx : OpenApiContext)
  (st st' : State) (rt : Router) :
  installOperationHandlers K self b (Some ctx) st = (inr rt, st') ->
  rid rt = routersMade st /\
  installPathParams (Some ctx) = inr (params rt) /\
  match isOperationHandlerOptions (operationHandlers (options self)) with
  | inr (Some oh) =>
      exists r, oh_resolver oh = Some r /\
                Forall2 (installed K r oh b (apiDoc ctx)) (routes ctx) (handlers rt)
  | inr None => handlers rt = []
  | inl _ => routes ctx = [] /\ handlers rt = []
  end.
Proof.
  unfold installOperationHandlers. intros H.
  destruct (installPathParams (Some ctx)) as [e | names] eqn:Hn;
    [discriminate |].
  destruct (installRoutes K self b (apiDoc ctx) (routes ctx) []) as [e | hs] eqn:Hr;
    [discriminate |].
  injection H as <- <-. cbn. split; [reflexivity |]. split; [reflexivity |].
  apply installRoutes_spec in Hr.
  destruct (isOperationHandlerOptions _) as [e | [oh |]]; [exact Hr | | exact Hr].
  destruct Hr as (r & new & Hres & -> & Hall). exists r. auto.
Qed.

Lemma installRoutes_fails (b : string) (d : Document)
  (oh : OperationHandlerOptions) (r : Resolver)
  (pre post : list RouteMetadata) (route : RouteMetadata) (e : Thrown)
  (acc : list (string * string * Fn)) :
  isOperationHandlerOptions (operationHandlers (options self)) = inr (Some oh) ->
  oh_resolver oh = Some r ->
  Forall (fun x => exists h, resolve K r (oh_basePath oh) x d = inr h) pre ->
  resolve K r (oh_basePath oh) route d = inl e ->
  installRoutes K self b d (pre ++ route :: post) acc = inl e.
Proof.
  intros Hoh Hr Hpre Hfail. revert acc.
  induction Hpre as [| x pre [h Hx] _ IH]; intros acc; cbn;
    rewrite Hoh, Hr.
  - now rewrite Hfail.
  - rewrite Hx. apply IH.
Qed.

(** X17.  When the resolver throws for a route, after succeeding for
    the routes before it, the request that triggered the installation
    is forwarded that error and [router] stays as it was: the failed
    installation is not kept, and the next request that finds [router]
    empty installs again. *)
Theorem resolver_throw_is_not_kept (mc : MiddlewareContext)
  (ctx : OpenApiContext) (oh : OperationHandlerOptions) (r : Resolver)
  (pre post : list RouteMetadata) (route : RouteMetadata) (e : Thrown)
  (req : Request) (st : State) :
  context mc = Some ctx ->
  isOperationHandlerOptions (operationHandlers (options self)) = inr (Some oh) ->
  oh_resolver oh = Some r ->
  routes ctx = pre ++ route :: post ->
  Forall (fun x => exists h, resolve K r (oh_basePath oh) x (apiDoc ctx) = inr h)
         pre ->
  resolve K r (oh_basePath oh) route (apiDoc ctx) = inl e ->
  exists st',
    operationHandlersCallback K self mc req st = (MwError e, st') /\
    router st' = router st /\
    routersMade st' = S (routersMade st).
Proof.
  intros Hc Hoh Hr Hroutes Hpre Hfail.
  unfold operationHandlersCallback, installOperationHandlers.
  rewrite Hc. cbn [installPathParams]. rewrite Hroutes.
  rewrite (installRoutes_fails (baseUrl req) (apiDoc ctx) oh r pre post route e []
             Hoh Hr Hpre Hfail).
  eexists. split; [reflexivity |]. split; reflexivity.
Qed.

Lemma callback_keeps (mw : Stage) (mc : MiddlewareContext) (r : Request)
  (st st' : State) (res : MwResult) :
  callback K self mw mc r st = (res, st') -> keeps st st'.
Proof.
  unfold keeps.
  destruct mw; cbn [callback];
    unfold pathParamsCallback, metadataCallback, securityCallback,
      multipartCallback, requestCallback, responseCallback,
      operationHandlersCallback, installOperationHandlers, memo;
    intros H; repeat ChainFacts.break_match; ChainFacts.pair_inv;
    try discriminate; cbn;
    (split; [reflexivity |]); (split; [reflexivity |]);
    (split; [reflexivity |]);
    (split; [intros Hi; first [assumption | reflexivity | congruence] |]);
    (split; [intros Hr; first [assumption | discriminate] |]);
    intros s0 m0; destruct s0; cbn; first [tauto | congruence].
Qed.

Lemma continue_keeps (res : MwResult) (r : Request) (rest : list Stage)
  (st : State) : stays st (continue res r rest st).
Proof. destruct res; unfold stays; cbn; repeat split; auto; destruct s; auto. Qed.

Lemma stays_trans (a b c : State) : stays a b -> stays b c -> stays a c.
Proof.
  intros (H1 & H2 & H3 & H4) (G1 & G2 & G3 & G4).
  unfold stays. repeat split; auto.
Qed.

Lemma stays_same (st st' : State) :
  pContext st' = pContext st -> inited st' = inited st ->
  router st' = router st -> (forall s, slot s st' = slot s st) ->
  stays st st'.
Proof.
  intros Hp Hi Hr Hs. unfold stays. rewrite Hp, Hi, Hr.
  repeat split; auto. intros s m. now rewrite Hs.
Qed.

Lemma keeps_stays (st st' : State) : keeps st st' -> stays st st'.
Proof.
  intros (Hp & _ & _ & Hi & Hr & Hs). unfold stays. rewrite Hp.
  repeat split; auto.
Qed.

Ltac same :=
  solve [apply stays_same; try reflexivity; try (intros []; reflexivity)].

Lemma step_stays (st : State) (a : Action) : stays st (step st a).
Proof.
  destruct a as [r | o | i]; cbn.
  - same.
  - destruct (pContext st) eqn:Hp; [same |].
    unfold stays. cbn. rewrite Hp. repeat split; auto; try discriminate.
  - destruct (pick i (tasks st)) as [[[r c | r mw rest] others] |]; [| | same].
    + destruct c as [| mw rest]; [same |].
      destruct mw; try same.
      destruct (router st); [| same].
      eapply stays_trans; [| apply continue_keeps]. same.
    + destruct (pContext st) as [mc |]; [| same].
      destruct (callback K self mw mc r (set_tasks others st))
        as [res st'] eqn:Hcb.
      eapply stays_trans; [| apply continue_keeps].
      eapply stays_trans; [| apply keeps_stays, (callback_keeps _ _ _ _ _ _ Hcb)].
      same.
Qed.

(** X18.  Over any further actions: [pContext], once fulfilled, keeps
    its value, also when the spec promise is reported settled again; the
    guard [inited], once set, stays set; [router], once set, stays set;
    and a middleware kept in a slot is never replaced. *)
Theorem settled_state_stays (st : State) (acts : list Action) :
  (forall mc, pContext st = Some mc -> pContext (run st acts) = Some mc) /\
  (inited st = true -> inited (run st acts) = true) /\
  (router st <> None -> router (run st acts) <> None) /\
  (forall s m, slot s st = Some m -> slot s (run st acts) = Some m).
Proof.
  change (stays st (run st acts)).
  revert st. induction acts as [| a acts IH]; intros st.
  - same.
  - change (run st (a :: acts)) with (run (step st a) acts).
    eapply stays_trans; [apply step_stays | apply IH].
Qed.

(** X21.  As long as the spec promise has not settled, every request
    waits at the first middleware: none has left the chain, on either
    way, and the chain has made no call. *)
Theorem pending_load_holds_requests (acts : list Action) :
  forallb (fun a => negb (isSettle a)) acts = true ->
  pContext (run init acts) = None /\
  finished (run init acts) = [] /\
  log (run init acts) = [] /\
  Forall (atFirst (installMiddleware self)) (tasks (run init acts)) /\
  List.length (tasks (run init acts)) = arrivals acts.
Proof.
  intros Hno.
  assert (HP0 : Pending self init) by (unfold Pending; cbn; auto).
  destruct (ChainFacts.run_Pending K self acts init Hno HP0)
    as [(Hp & Ht & Hf & Hl) Htot].
  repeat split; auto.
  unfold total in Htot. rewrite Hf in Htot. cbn in Htot. lia.
Qed.

Lemma stage_eqb_refl (s : Stage) : stage_eqb s s = true.
Proof. destruct s; reflexivity. Qed.

Lemma stage_eqb_neq (a b : Stage) : a <> b -> stage_eqb a b = false.
Proof. destruct a, b; intros H; try reflexivity; congruence. Qed.

Lemma stage_eq_dec (a b : Stage) : {a = b} + {a <> b}.
Proof. decide equality. Qed.

Lemma news_app (s : Stage) (a b : list Call) :
  news s (a ++ b) = news s a ++ news s b.
Proof. unfold news. apply flat_map_app. Qed.

Lemma news_params (s : Stage) (t : Target) (names : list string) :
  news s (map (CallParam t) names) = [].
Proof. induction names as [| x names IH]; [reflexivity | exact IH]. Qed.


Lemma builtOnce_same (st st' : State) :
  (forall s, slot s st' = slot s st) ->
  (forall s, news s (log st') = news s (log st)) ->
  builtOnce K self st -> builtOnce K self st'.
Proof.
  intros Hs Hc H s. rewrite Hs, Hc. apply H.
Qed.

(** One pass through [x = x || make()] keeps the invariant: [s0] is the
    middleware whose slot is read, [tail] the calls made after the
    factory's. *)
Lemma builtOnce_memo (st st' : State) (s0 : Stage) (fresh : Mw)
  (res : Thrown + Mw) (made tail : list Call) :
  builtOnce K self st ->
  memo K self (slot s0 st) fresh = (res, made) ->
  kind fresh = s0 ->
  (forall s, s <> s0 -> slot s st' = slot s st) ->
  slot s0 st' = match res with inl _ => slot s0 st | inr m => Some m end ->
  log st' = log st ++ made ++ tail ->
  (forall s, news s tail = []) ->
  builtOnce K self st'.
Proof.
  intros HB Hm Hk Hother Hslot Hlog Htail s.
  rewrite Hlog, !news_app, Htail, app_nil_r.
  destruct (HB s) as (Hkind & thrown & Hall & Hnews).
  destruct (stage_eq_dec s s0) as [-> | Hne].
  - rewrite Hslot.
    destruct (ChainFacts.memo_cases K self _ _ _ _ Hm)
      as [(m & Hsl & -> & ->) | (Hsl & -> & [(e & Hb & ->) | (Hb & ->)])];
      rewrite Hsl in *.
    + cbn [news flat_map]. rewrite app_nil_r.
      split; [exact Hkind |]. exists thrown. auto.
    + split; [exact Hkind |]. exists (thrown ++ [fresh]). split.
      * apply Forall_app. split; [exact Hall |].
        constructor; [congruence | constructor].
      * rewrite Hnews. cbn [news flat_map]. rewrite Hk, stage_eqb_refl.
        cbn. now rewrite !app_nil_r.
    + split.
      * intros m H. injection H as <-. auto.
      * exists thrown. split; [exact Hall |].
        rewrite Hnews. cbn [news flat_map]. rewrite Hk, stage_eqb_refl.
        cbn. now rewrite !app_nil_r.
  - rewrite (Hother s Hne).
    assert (Hmade : news s made = []).
    { destruct (ChainFacts.memo_cases K self _ _ _ _ Hm)
        as [(m & _ & _ & ->) | (_ & -> & _)]; [reflexivity |].
      cbn. rewrite Hk, (stage_eqb_neq s0 s) by congruence. reflexivity. }
    rewrite Hmade, app_nil_r. split; [exact Hkind |]. exists thrown. auto.
Qed.

Ltac slot_facts :=
  repeat match goal with
         | H : metamw _ = _ |- _ => rewrite H in *; clear H
         | H : scmw _ = _ |- _ => rewrite H in *; clear H
         | H : fumw _ = _ |- _ => rewrite H in *; clear H
         | H : reqmw _ = _ |- _ => rewrite H in *; clear H
         | H : resmw _ = _ |- _ => rewrite H in *; clear H
         end.

Ltac unchanged HB :=
  solve [ exact HB
        | match type of HB with
          | builtOnce _ _ ?st0 =>
              apply (builtOnce_same st0);
              [ intros []; reflexivity
              | intros ?;
                cbn [log add_log set_inited set_metamw set_scmw set_fumw
                     set_reqmw set_resmw set_router bump_routers set_tasks
                     add_finished add_task continue];
                rewrite ?news_app, ?news_params; cbn; rewrite ?app_nil_r;
                reflexivity
              | exact HB ]
          end ].

Ltac memoised s0 HB Hm :=
  match type of HB with
  | builtOnce _ _ ?st0 =>
      lazymatch goal with
      | |- builtOnce _ _ (add_log (?made ++ [CallMw ?m ?r]) _) =>
          apply (builtOnce_memo st0 _ s0 _ _ made [CallMw m r] HB Hm);
          [ reflexivity
          | intros [] Hne; solve [reflexivity | congruence]
          | reflexivity
          | reflexivity
          | reflexivity ]
      | |- builtOnce _ _ (add_log ?made _) =>
          apply (builtOnce_memo st0 _ s0 _ _ made [] HB Hm);
          [ reflexivity
          | intros [] Hne; solve [reflexivity | congruence]
          | reflexivity
          | cbn; rewrite ?app_nil_r; reflexivity
          | reflexivity ]
      end
  end.

Lemma callback_builtOnce (mw : Stage) (mc : MiddlewareContext) (r : Request)
  (st st' : State) (res : MwResult) :
  callback K self mw mc r st = (res, st') ->
  builtOnce K self st -> builtOnce K self st'.
Proof.
  destruct mw; cbn [callback]; intros H HB.
  - unfold pathParamsCallback in H.
    repeat ChainFacts.break_match; ChainFacts.pair_inv; unchanged HB.
  - unfold metadataCallback in H.
    destruct (memo K self (metamw st) _) as [[e | m] made] eqn:Hm;
      ChainFacts.pair_inv; memoised MetadataMw HB Hm.
  - unfold securityCallback in H.
    destruct (context mc) as [c |]; [| ChainFacts.pair_inv; exact HB].
    destruct (on (validateSecurity (options self)));
      [| ChainFacts.pair_inv; exact HB].
    destruct (schemesOf (apiDoc c)); [| ChainFacts.pair_inv; exact HB].
    destruct (memo K self (scmw st) _) as [[e | m] made] eqn:Hm;
      ChainFacts.pair_inv; memoised SecurityMw HB Hm.
  - unfold multipartCallback in H.
    destruct (context mc) as [c |]; [| ChainFacts.pair_inv; exact HB].
    destruct (memo K self (fumw st) _) as [[e | m] made] eqn:Hm;
      ChainFacts.pair_inv; memoised MultipartMw HB Hm.
  - unfold requestCallback in H.
    destruct (context mc) as [c |]; [| ChainFacts.pair_inv; exact HB].
    destruct (memo K self (reqmw st) _) as [[e | m] made] eqn:Hm;
      ChainFacts.pair_inv; memoised RequestMw HB Hm.
  - unfold responseCallback in H.
    destruct (context mc) as [c |]; [| ChainFacts.pair_inv; exact HB].
    destruct (memo K self (resmw st) _) as [[e | m] made] eqn:Hm;
      ChainFacts.pair_inv; memoised ResponseMw HB Hm.
  - unfold operationHandlersCallback, installOperationHandlers in H.
    repeat ChainFacts.break_match; ChainFacts.pair_inv; try discriminate;
      unchanged HB.
Qed.

Lemma step_builtOnce (st : State) (a : Action) :
  builtOnce K self st -> builtOnce K self (step st a).
Proof.
  intros HB. destruct a as [r | o | i]; cbn.
  - unchanged HB.
  - destruct (pContext st); unchanged HB.
  - destruct (pick i (tasks st)) as [[[r c | r mw rest] others] |];
      [| | exact HB].
    + destruct c as [| mw rest]; [unchanged HB |].
      destruct mw; try unchanged HB.
      destruct (router st) as [rt |]; [| unchanged HB].
      destruct (dispatch K rt r); unchanged HB.
    + destruct (pContext st) as [mc |]; [| exact HB].
      destruct (callback K self mw mc r (set_tasks others st))
        as [res st'] eqn:Hcb.
      apply callback_builtOnce in Hcb; [| unchanged HB].
      destruct res; unchanged Hcb.
Qed.

Lemma init_builtOnce : builtOnce K self init.
Proof.
  intros s. split; [destruct s; discriminate |].
  exists []. split; [constructor | destruct s; reflexivity].
Qed.



Lemma filter_params (p : Call -> bool) (t : Target) (names : list string) :
  (forall x, p (CallParam t x) = false) ->
  filter p (map (CallParam t) names) = [].
Proof.
  intros H. induction names as [| x names IH]; cbn; [reflexivity |].
  now rewrite H.
Qed.

Ltac slot_kinds HB :=
  repeat match goal with
         | E : metamw ?st = Some ?m |- _ =>
             let Hk := fresh "Hk" in
             pose proof (proj1 (proj1 (HB MetadataMw) m E)) as Hk;
             destruct m; try discriminate Hk; clear E Hk
         | E : fumw ?st = Some ?m |- _ =>
             let Hk := fresh "Hk" in
             pose proof (proj1 (proj1 (HB MultipartMw) m E)) as Hk;
             destruct m; try discriminate Hk; clear E Hk
         | E : reqmw ?st = Some ?m |- _ =>
             let Hk := fresh "Hk" in
             pose proof (proj1 (proj1 (HB RequestMw) m E)) as Hk;
             destruct m; try discriminate Hk; clear E Hk
         | E : resmw ?st = Some ?m |- _ =>
             let Hk := fresh "Hk" in
             pose proof (proj1 (proj1 (HB ResponseMw) m E)) as Hk;
             destruct m; try discriminate Hk; clear E Hk
         end.

Lemma callback_security_off (mw : Stage) (mc : MiddlewareContext)
  (r : Request) (st st' : State) (res : MwResult) :
  on (validateSecurity (options self)) = false ->
  callback K self mw mc r st = (res, st') ->
  builtOnce K self st -> scmw st = None -> count isSecurityCall (log st) = 0 ->
  scmw st' = None /\ count isSecurityCall (log st') = 0.
Proof.
  intros Hoff.
  destruct mw; cbn [callback];
    unfold pathParamsCallback, metadataCallback, securityCallback,
      multipartCallback, requestCallback, responseCallback,
      operationHandlersCallback, installOperationHandlers, memo;
    rewrite ?Hoff;
    intros H HB Hs Hc; repeat ChainFacts.break_match; ChainFacts.pair_inv;
    try discriminate; try (split; assumption);
    slot_kinds HB; unfold count in *;
    cbn [log add_log set_inited set_metamw set_scmw set_fumw set_reqmw
         set_resmw set_router bump_routers scmw];
    rewrite ?filter_app, ?length_app, ?filter_params by reflexivity;
    cbn [filter isSecurityCall List.length app];
    (split; [assumption | lia]).
Qed.

(** X22.  With security validation switched off, no security middleware
    is ever built or run, whatever the loaded document declares. *)
Theorem security_off_never_runs (acts : list Action) :
  on (validateSecurity (options self)) = false ->
  scmw (run init acts) = None /\
  count isSecurityCall (log (run init acts)) = 0.
Proof.
  intros Hoff.
  assert (H : builtOnce K self (run init acts) /\ scmw (run init acts) = None /\
              count isSecurityCall (log (run init acts)) = 0);
    [| tauto].
  apply ChainFacts.run_invariant.
  - intros st a (HB & Hs & Hc).
    split; [now apply step_builtOnce |].
    destruct a as [r | o | i]; cbn.
    + auto.
    + destruct (pContext st); auto.
    + destruct (pick i (tasks st)) as [[[r c | r mw rest] others] |]; auto.
      * destruct c as [| mw rest]; [auto |].
        assert (Hd : forall rt,
                   let st' := continue (dispatch K rt r) r rest
                                (add_log [CallDispatch (rid rt) r]
                                   (set_tasks others st)) in
                   scmw st' = None /\ count isSecurityCall (log st') = 0).
        { intros rt. unfold count in *.
          destruct (dispatch K rt r);
            cbn [continue add_task add_finished set_tasks add_log log scmw];
            rewrite filter_app, length_app; cbn; split; auto; lia. }
        destruct mw; auto.
        destruct (router st) as [rt |]; [apply Hd | auto].
      * destruct (pContext st) as [mc |]; [| auto].
        destruct (callback K self mw mc r (set_tasks others st))
          as [res st'] eqn:Hcb.
        assert (HB' : builtOnce K self (set_tasks others st))
          by (unchanged HB).
        pose proof (callback_security_off _ _ _ _ _ _ Hoff Hcb HB' Hs Hc)
          as Hoff'.
        destruct res; exact Hoff'.
  - split; [apply init_builtOnce | split; reflexivity].
Qed.

(** X24.  A spec that loads but whose preprocessing, or whose context
    construction, throws [e] leaves the chain in exactly the state a
    load rejected with [e] leaves it in, after any actions before and
    after. *)
Theorem throw_after_load_is_a_rejection (spec : Spec) (e : Thrown)
  (acts1 acts2 : list Action) (st : State) :
  preProcess K (spec_apiDoc spec) (options self) = inl e \/
  (exists d, preProcess K (spec_apiDoc spec) (options self) = inr d /\
             newOpenApiContext K spec (options self) = inl e) ->
  run st (acts1 ++ Settle (Resolved spec) :: acts2)
  = run st (acts1 ++ Settle (Rejected e) :: acts2).
Proof.
  intros H.
  assert (Hb : buildContext K self (Resolved spec)
               = buildContext K self (Rejected e)).
  { unfold buildContext. destruct H as [-> | (d & -> & ->)]; reflexivity. }
  rewrite !ChainFacts.run_app.
  change (run ?s (?a :: ?l)) with (run (step s a) l).
  f_equal. cbn [Chain.step]. rewrite Hb. reflexivity.
Qed.

Lemma appCalls_app (a b : list Call) :
  appCalls (a ++ b) = appCalls a ++ appCalls b.
Proof. unfold appCalls. apply filter_app. Qed.

Lemma appCalls_router (id : nat) (names : list string) :
  appCalls (map (CallParam (OnRouter id)) names) = [].
Proof. induction names; [reflexivity | assumption]. Qed.

Lemma appCalls_params (a : nat) (names : list string) :
  appCalls (map (CallParam (OnApp a)) names) = map (CallParam (OnApp a)) names.
Proof.
  induction names as [| x names IH]; [reflexivity |].
  cbn. unfold appCalls in IH. now rewrite IH.
Qed.

Ltac no_app_calls :=
  cbn [log add_log set_inited set_metamw set_scmw set_fumw set_reqmw
       set_resmw set_router bump_routers set_tasks add_finished add_task
       continue inited];
  rewrite ?appCalls_app, ?appCalls_router; cbn; rewrite ?app_nil_r;
  reflexivity.

(** A callback either leaves the guard and the calls on applications as
    they are, or it is the callback of [pathParamsMiddleware] finding the
    guard unset and a loaded context: it sets the guard and makes its
    calls on the application of its own request. *)
Lemma callback_appCalls (mw : Stage) (mc : MiddlewareContext) (r : Request)
  (st st' : State) (res : MwResult) :
  callback K self mw mc r st = (res, st') ->
  (inited st' = inited st /\ appCalls (log st') = appCalls (log st)) \/
  (mw = PathParamsMw /\ inited st = false /\ inited st' = true /\
   res = MwNext r /\
   exists c names,
     context mc = Some c /\ installPathParams (Some c) = inr names /\
     appCalls (log st')
     = appCalls (log st)
       ++ CallInstallPathParams (OnApp (app r)) (Some c)
       :: map (CallParam (OnApp (app r))) names).
Proof.
  destruct mw; cbn [callback]; intros H.
  - unfold pathParamsCallback in H.
    destruct (Js.truthy (error mc));
      [ChainFacts.pair_inv; left; split; reflexivity |].
    destruct (inited st) eqn:Hi;
      [ChainFacts.pair_inv; left; split; [exact Hi | reflexivity] |].
    destruct (installPathParams (context mc)) as [e | names] eqn:Hn;
      destruct (context mc) as [c |] eqn:Hc; try discriminate;
      injection H as <- <-.
    + left. split; [exact Hi |]. no_app_calls.
    + right. repeat split; try reflexivity.
      exists c, names. split; [reflexivity |]. split; [exact Hn |].
      cbn [log add_log set_inited].
      rewrite !appCalls_app, appCalls_params, <- app_assoc. reflexivity.
  - left. unfold metadataCallback, memo in H.
    repeat ChainFacts.break_match; ChainFacts.pair_inv;
      (split; [reflexivity | no_app_calls]).
  - left. unfold securityCallback, memo in H.
    repeat ChainFacts.break_match; ChainFacts.pair_inv;
      (split; [reflexivity | no_app_calls]).
  - left. unfold multipartCallback, memo in H.
    repeat ChainFacts.break_match; ChainFacts.pair_inv;
      (split; [reflexivity | no_app_calls]).
  - left. unfold requestCallback, memo in H.
    repeat ChainFacts.break_match; ChainFacts.pair_inv;
      (split; [reflexivity | no_app_calls]).
  - left. unfold responseCallback, memo in H.
    repeat ChainFacts.break_match; ChainFacts.pair_inv;
      (split; [reflexivity | no_app_calls]).
  - left. unfold operationHandlersCallback, installOperationHandlers in H.
    repeat ChainFacts.break_match; ChainFacts.pair_inv; try discriminate;
      (split; [reflexivity | no_app_calls]).
Qed.

(** The same for one step of the chain. *)
Lemma step_appCalls (st : State) (a : Action) :
  (inited (step st a) = inited st /\
   appCalls (log (step st a)) = appCalls (log st)) \/
  (inited st = false /\ inited (step st a) = true /\
   exists i r rest others mc c names,
     a = Run i /\
     pick i (tasks st) = Some (Then r PathParamsMw rest, others) /\
     pContext st = Some mc /\ context mc = Some c /\
     installPathParams (Some c) = inr names /\
     appCalls (log (step st a))
     = appCalls (log st)
       ++ CallInstallPathParams (OnApp (app r)) (Some c)
       :: map (CallParam (OnApp (app r))) names).
Proof.
  destruct a as [r | o | i]; cbn [Chain.step].
  - left. split; reflexivity.
  - left. destruct (pContext st); split; reflexivity.
  - destruct (pick i (tasks st)) as [[[r c | r mw rest] others] |] eqn:Hpick;
      [| | left; split; reflexivity].
    + left. destruct c as [| mw rest]; [split; reflexivity |].
      destruct mw; try (split; reflexivity).
      destruct (router st) as [rt |]; [| split; reflexivity].
      destruct (dispatch K rt r); (split; [reflexivity | no_app_calls]).
    + destruct (pContext st) as [mc |] eqn:Hp; [| left; split; reflexivity].
      destruct (callback K self mw mc r (set_tasks others st))
        as [res st'] eqn:Hcb.
      destruct (callback_appCalls _ _ _ _ _ _ Hcb)
        as [[Hi Hl] | (-> & Hi & Hi' & -> & c & names & Hc & Hn & Hl)].
      * left. cbn [set_tasks inited log] in Hi, Hl.
        destruct res; cbn [continue add_task add_finished set_tasks inited log];
          split; assumption.
      * right. cbn [set_tasks inited log] in Hi, Hl.
        split; [exact Hi |]. split; [exact Hi' |].
        exists i, r, rest, others, mc, c, names.
        repeat split; auto.
Qed.

(** X25.  In every run, as long as the guard [inited] is unset, no call
    has been made on an application with a loaded context.  Once it is
    set, the run has a step at which it was still unset and the callback
    of [pathParamsMiddleware] ran for a request [r] with the loaded
    context [c]; and all the calls ever made on applications are the
    ones of that step: [installPathParams] and one [app.param] per path
    parameter name, each on the application of [r].  The applications of
    all other requests get no call. *)
Theorem params_go_to_one_application (acts : list Action) :
  let st := run init acts in
  if inited st then
    exists acts1 i acts2 r rest others mc c names,
      acts = acts1 ++ Run i :: acts2 /\
      inited (run init acts1) = false /\
      pick i (tasks (run init acts1)) = Some (Then r PathParamsMw rest, others) /\
      pContext (run init acts1) = Some mc /\ context mc = Some c /\
      installPathParams (Some c) = inr names /\
      appCalls (log st)
      = CallInstallPathParams (OnApp (app r)) (Some c)
        :: map (CallParam (OnApp (app r))) names
  else appCalls (log st) = [].
Proof.
  induction acts as [| a acts IH] using rev_ind; [reflexivity |].
  cbv zeta in *. rewrite ChainFacts.run_app.
  change (run (run init acts) [a]) with (step (run init acts) a).
  destruct (step_appCalls (run init acts) a)
    as [[Hi Hl] | (Hi & Hi' & i & r & rest & others & mc & c & names
                   & -> & Hpick & Hp & Hc & Hn & Hl)].
  - rewrite Hi, Hl. destruct (inited (run init acts)); [| exact IH].
    destruct IH as (acts1 & i & acts2 & r & rest & others & mc & c & names
                    & -> & H).
    exists acts1, i, (acts2 ++ [a]), r, rest, others, mc, c, names.
    split; [| exact H]. now rewrite <- app_assoc.
  - rewrite Hi', Hl. rewrite Hi in IH. rewrite IH.
    exists acts, i, [], r, rest, others, mc, c, names. auto 10.
Qed.

End Installed.

(** A factory that throws is called again by the next request: its slot
    was left empty.  The other factories are called once for the two
    requests. *)
Example throwing_factory_is_called_again :
  news RequestMw (log (run factoryFails plainValidator init twoRequests))
  = [RequestOf petsDoc; RequestOf petsDoc] /\
  slot RequestMw (run factoryFails plainValidator init twoRequests) = None /\
  finished (run factoryFails plainValidator init twoRequests)
  = [(requestOn 5 1, Forwarded badSchema); (requestOn 6 2, Forwarded badSchema)] /\
  news MetadataMw (log (run factoryFails plainValidator init twoRequests))
  = [MetadataOf (Some petsContext) None] /\
  news RequestMw (log (run passThrough plainValidator init twoRequests))
  = [RequestOf petsDoc].
Proof. repeat split; reflexivity. Qed.

(** Two requests of two applications: the path parameters are installed
    on the application of the first, and the second gets no call. *)
Example second_application_gets_no_params :
  appCalls (log (run passThrough plainValidator init twoRequests))
  = [CallInstallPathParams (OnApp 5) (Some petsContext);
     CallParam (OnApp 5) "id"] /\
  finished (run passThrough plainValidator init twoRequests)
  = [(requestOn 5 1, Continued (requestOn 5 1));
     (requestOn 6 2, Continued (requestOn 6 2))].
Proof. split; reflexivity. Qed.

Lemma throw_after_load_is_a_rejection_witness :
  finished (run preprocessFails plainValidator init
              (beforeLoad ++ Settle (Resolved petsSpec) :: afterLoad))
  = [(request 1, Forwarded enoent); (request 2, Forwarded enoent)] /\
  run preprocessFails plainValidator init
    (beforeLoad ++ Settle (Resolved petsSpec) :: afterLoad)
  = run preprocessFails plainValidator init
      (beforeLoad ++ Settle (Rejected enoent) :: afterLoad).
Proof.
  split; [reflexivity |].
  apply (throw_after_load_is_a_rejection preprocessFails plainValidator
           petsSpec enoent beforeLoad afterLoad init).
  left. reflexivity.
Defined.

Lemma security_off_never_runs_witness :
  schemesOf securedDoc <> None /\
  scmw (run passThrough securityOffValidator init throughSecurity) = None /\
  count isSecurityCall
    (log (run passThrough securityOffValidator init throughSecurity)) = 0.
Proof.
  split; [discriminate |].
  apply (security_off_never_runs passThrough securityOffValidator
           throughSecurity).
  reflexivity.
Defined.

Lemma settled_state_stays_witness :
  pContext (run passThrough plainValidator
              (run passThrough plainValidator init atPathParams)
              [Settle (Rejected enoent); Arrive (request 2); Run 0; Run 0])
  = Some loaded /\
  inited (run passThrough handlerValidator
            (run passThrough handlerValidator init oneRequest)
            [Arrive (request 2); Run 0; Run 0]) = true /\
  router (run passThrough handlerValidator
            (run passThrough handlerValidator init oneRequest)
            [Arrive (request 2); Run 0; Run 0]) <> None /\
  slot MetadataMw
    (run passThrough handlerValidator
       (run passThrough handlerValidator init oneRequest)
       [Arrive (request 2); Run 0; Run 0])
  = Some (MetadataOf (Some petsContext) None).
Proof.
  split; [| split; [| split]].
  - apply (proj1 (settled_state_stays passThrough plainValidator
                    (run passThrough plainValidator init atPathParams)
                    [Settle (Rejected enoent); Arrive (request 2); Run 0; Run 0])).
    reflexivity.
  - apply (proj1 (proj2 (settled_state_stays passThrough handlerValidator
                    (run passThrough handlerValidator init oneRequest)
                    [Arrive (request 2); Run 0; Run 0]))).
    reflexivity.
  - apply (proj1 (proj2 (proj2 (settled_state_stays passThrough handlerValidator
                    (run passThrough handlerValidator init oneRequest)
                    [Arrive (request 2); Run 0; Run 0])))).
    discriminate.
  - apply (proj2 (proj2 (proj2 (settled_state_stays passThrough handlerValidator
                    (run passThrough handlerValidator init oneRequest)
                    [Arrive (request 2); Run 0; Run 0])))).
    reflexivity.
Defined.

Lemma pending_load_holds_requests_witness :
  finished (run passThrough plainValidator init beforeLoad) = [] /\
  log (run passThrough plainValidator init beforeLoad) = [].
Proof.
  destruct (pending_load_holds_requests passThrough plainValidator beforeLoad
              eq_refl) as (_ & H2 & H3 & _).
  split; [exact H2 | exact H3].
Defined.

Lemma installOperationHandlers_router_witness :
  exists rt st',
    installOperationHandlers passThrough handlerValidator "/v1"
      (Some petsContext) init = (inr rt, st') /\
    params rt = ["id"%string] /\
    handlers rt = [("get"%string, "/pets/:id"%string, 7)].
Proof.
  eexists. eexists. split; [reflexivity |].
  destruct (installOperationHandlers_router passThrough handlerValidator
              "/v1" petsContext init _ _ eq_refl) as (_ & _ & _).
  split; reflexivity.
Defined.

Lemma resolver_throw_is_not_kept_witness :
  exists st',
    operationHandlersCallback resolverFails handlerValidator loadedBoom
      (request 1) init
    = (MwError (Js.Obj (PlainError "no handler")), st') /\
    router st' = None.
Proof.
  assert (Hpre : Forall
            (fun x => exists h,
               resolve resolverFails DefaultResolver "./handlers" x
                 (apiDoc boomContext) = inr h)
            [mkRoute "/v1" "/v1/pets/:id" "/pets/{id}" "GET" ["id"]]).
  { constructor; [exists 7; reflexivity | constructor]. }
  destruct (resolver_throw_is_not_kept resolverFails handlerValidator
              loadedBoom boomContext
              (mkOpHandlers "./handlers" (Some DefaultResolver)) DefaultResolver
              [mkRoute "/v1" "/v1/pets/:id" "/pets/{id}" "GET" ["id"]]
              [mkRoute "/v1" "/v1/pets" "/pets" "GET" []]
              (mkRoute "/v1" "/v1/boom" "/boom" "POST" [])
              (Js.Obj (PlainError "no handler")) (request 1) init
              eq_refl eq_refl eq_refl eq_refl Hpre eq_refl)
    as (st' & H1 & H2 & _).
  exists st'. split; [exact H1 | exact H2].
Defined.

End ChainMore.

(* ================================================================== *)
(** ** The error handler of the example application *)
(* ================================================================== *)

Module ExampleMore.
Import Types Samples Observe.
Local Open Scope Z_scope.

Lemma create_status_nonzero (err : CreateArg) : status (create err) <> 0.
Proof.
  unfold create.
  repeat match goal with
         | |- context [if ?b then _ else _] => destruct b
         end; cbn; unfold Js.num_or;
    destruct (c_overrideStatus err) as [z |]; try discriminate;
    (destruct (z =? 0) eqn:E; [discriminate | now apply Z.eqb_neq]).
Qed.

(** X23.  The error handler of the example application answers every
    error made by [HttpError.create] with the status of that error, both
    as the HTTP status and as [code] in the body, and passes on its
    message and its list of errors. *)
Theorem handler_answers_with_status (err : CreateArg) :
  let e := create err in
  sent_status (errorHandler (thrown e)) = status e /\
  sent_code (errorHandler (thrown e)) = status e /\
  sent_message (errorHandler (thrown e)) = c_message err /\
  sent_errors (errorHandler (thrown e)) = Some (errors e).
Proof.
  intros e. unfold errorHandler, thrown. cbn.
  pose proof (create_status_nonzero err) as Hnz. fold e in Hnz.
  apply Z.eqb_neq in Hnz. rewrite Hnz.
  repeat split. unfold e, create.
  repeat match goal with
         | |- context [if ?b then _ else _] => destruct b
         end; reflexivity.
Qed.

End ExampleMore.
